(** * CloudFront storage middleware: redirect decision and construction

    Shallow embedding of
    [registry/storage/driver/middleware/cloudfront/middleware.go]:
    the constructor [newCloudFrontStorageMiddleware] and the method
    [RedirectURL] of [cloudFrontStorageMiddleware].

    Go's [map[string]interface{}] is a [gmap string value]; the constructor
    is written in a small state-and-error monad whose state carries the
    options map (the constructor writes to it) and the trace of the calls
    that leave the function (logger, [newAWSIPs]); [RedirectURL] returns
    its Go result pair and its trace.  Functions of other
    packages ([net/url], [os], [encoding/pem], [crypto/x509], [time], the
    AWS signer, and [newAWSIPs] / [eligibleForS3] of the same package's
    [s3_filter.go]) are the fields of the class [GoEnv]. *)

From Stdlib Require Import ZArith String Ascii List Bool Lia.
From stdpp Require Import base option gmap strings list.

Local Open Scope string_scope.
Local Open Scope Z_scope.

(** ** The [strings] functions that work on bytes *)

Module strings.

(** [strings.HasPrefix]. *)
Definition HasPrefix (s pre : string) : bool := String.prefix pre s.

(** [strings.Contains(s, substr)]: [substr] starts at some index of [s]. *)
Fixpoint Contains (s substr : string) : bool :=
  HasPrefix s substr ||
  match s with
  | EmptyString => false
  | String _ s' => Contains s' substr
  end.

(** [strings.HasSuffix]:
    [len(s) >= len(suffix) && s[len(s)-len(suffix):] == suffix]. *)
Definition HasSuffix (s suffix : string) : bool :=
  (String.length suffix <=? String.length s)%nat &&
  String.eqb
    (substring (String.length s - String.length suffix)
               (String.length suffix) s)
    suffix.

(** [strings.Split(s, sep)] for a non-empty [sep]: [skip] counts the bytes
    of a separator occurrence still to be passed over, [cur] is the piece
    being read, in reverse. *)
Fixpoint split_from (sep : string) (skip : nat) (cur s : string)
  : list string :=
  match s with
  | EmptyString => [String.rev cur]
  | String c s' =>
      match skip with
      | S k => split_from sep k cur s'
      | O =>
          if HasPrefix s sep
          then String.rev cur
                 :: split_from sep (String.length sep - 1) EmptyString s'
          else split_from sep O (String c cur) s'
      end
  end.

Definition Split (s sep : string) : list string :=
  split_from sep O EmptyString s.

End strings.

(** ** Values, errors, results *)

(** A Go [error], by its message; [fmt.Errorf] with one [%s]/[%v] verb at
    the end of the format appends the message of its argument. *)
Definition error := string.

Definition Errorf (format : string) : error := format.
Definition Errorf1 (format : string) (err : error) : error := format +:+ err.

Inductive result (A : Type) : Type :=
| Ok (a : A)
| Err (e : error).
Arguments Ok {A} a.
Arguments Err {A} e.

(** A dynamically typed [interface{}] value of the options map.  The
    constructor distinguishes [string], [time.Duration] and everything
    else; [VNil], [VBool] and [VInt] stand for everything else.  A
    [time.Duration] is a number of nanoseconds. *)
Inductive value : Type :=
| VNil
| VBool (b : bool)
| VInt (n : Z)
| VString (s : string)
| VDuration (d : Z).

(** [time.Minute], in nanoseconds. *)
Definition Minute : Z := 60 * 1000000000.

(** What leaves a call: a logger warning, the start of a range set, a
    signature, a call of the wrapped driver's [RedirectURL]. *)
Inductive event : Type :=
| Warn (msg : string)
| CallNewAWSIPs (host : string) (updateFrequency : Z) (awsRegion : list string)
| CallSign (target : string) (expiry : Z)
| CallDriverRedirectURL (path : string).

(** ** The monad of the constructor *)

Record cstate : Type := {
  options : gmap string value;
  trace : list event
}.

Definition M (A : Type) : Type := cstate → result A * cstate.

#[global] Instance M_ret : MRet M := λ A a st, (Ok a, st).
#[global] Instance M_bind : MBind M := λ A B f m st,
  match m st with
  | (Ok a, st') => f a st'
  | (Err e, st') => (Err e, st')
  end.

Definition fail {A : Type} (e : error) : M A := λ st, (Err e, st).

(** [v, ok := options[key]] *)
Definition get_option (key : string) : M (option value) :=
  λ st, (Ok (options st !! key), st).

(** [options[key] = v] *)
Definition set_option (key : string) (v : value) : M unit :=
  λ st, (Ok tt, {| options := <[key := v]> (options st); trace := trace st |}).

Definition emit (ev : event) : M unit :=
  λ st, (Ok tt, {| options := options st; trace := trace st ++ [ev] |}).

(** ** The environment: the functions defined outside this file *)

Class GoEnv : Type := {
  (** [*http.Request] *)
  Request : Type;
  (** [*rsa.PrivateKey] *)
  PrivateKey : Type;
  (** [*awsIPs] of [s3_filter.go], never nil here *)
  awsIPs : Type;
  (** the arguments and the results of the other storage-driver methods *)
  Args : Type;
  Ret : Type;
  (** [strings.ToLower] and [strings.TrimSpace], which go by Unicode code
      points *)
  ToLower : string → string;
  TrimSpace : string → string;
  (** [url.Parse], its error only *)
  url_Parse : string → option error;
  os_ReadFile : string → result (list Byte.byte);
  (** [pem.Decode], the [Bytes] of the block, [None] for a nil block *)
  pem_Decode : list Byte.byte → option (list Byte.byte);
  x509_ParsePKCS1PrivateKey : list Byte.byte → result PrivateKey;
  time_ParseDuration : string → result Z;
  defaultUpdateFrequency : Z;
  defaultIPRangesURL : string;
  newAWSIPs : string → Z → list string → result awsIPs;
  eligibleForS3 : Request → option awsIPs → bool;
  (** the method [Sign] of a [sign.URLSigner] made by [sign.NewURLSigner] *)
  URLSigner_Sign : string → PrivateKey → string → Z → string * option error
}.

Section Middleware.

Context `{E : GoEnv}.

(** [sign.URLSigner]. *)
Record URLSigner : Type := NewURLSigner {
  keyID : string;
  privKey : PrivateKey
}.

Definition Sign (s : URLSigner) (url : string) (expires : Z)
  : string * option error :=
  URLSigner_Sign (keyID s) (privKey s) url expires.

(** [storagedriver.StorageDriver], as far as this file uses it:
    [RedirectURL], the other methods of the interface by name, and the
    outcome of the type assertion to [S3BucketKeyer]. *)
Record StorageDriver : Type := {
  sd_RedirectURL : Request → string → string * option error;
  sd_method : string → Args → Ret;
  sd_S3BucketKey : option (string → string)
}.

Record cloudFrontStorageMiddleware : Type := {
  lh_StorageDriver : StorageDriver;
  lh_awsIPs : option awsIPs;
  lh_urlSigner : URLSigner;
  lh_baseURL : string;
  lh_duration : Z
}.

(** ** [newCloudFrontStorageMiddleware] *)

Definition parse_baseurl : M string :=
  base ← get_option "baseurl";
  match base with
  | None => fail (Errorf "no baseurl provided")
  | Some (VString baseURL) =>
      let baseURL :=
        if negb (strings.Contains baseURL "://")
        then "https://" +:+ baseURL else baseURL in
      let baseURL :=
        if negb (strings.HasSuffix baseURL "/")
        then baseURL +:+ "/" else baseURL in
      match url_Parse baseURL with
      | Some err => fail (Errorf1 "invalid baseurl: " err)
      | None => mret baseURL
      end
  | Some _ => fail (Errorf "baseurl must be a string")
  end.

Definition parse_privatekey : M string :=
  pk ← get_option "privatekey";
  match pk with
  | None => fail (Errorf "no privatekey provided")
  | Some (VString pkPath) => mret pkPath
  | Some _ => fail (Errorf "privatekey must be a string")
  end.

Definition parse_keypairid : M string :=
  kpid ← get_option "keypairid";
  match kpid with
  | None => fail (Errorf "no keypairid provided")
  | Some (VString keypairID) => mret keypairID
  | Some _ => fail (Errorf "keypairid must be a string")
  end.

Definition get_urlSigner (pkPath keypairID : string) : M URLSigner :=
  match os_ReadFile pkPath with
  | Err err => fail (Errorf1 "failed to read privatekey file: " err)
  | Ok pkBytes =>
      match pem_Decode pkBytes with
      | None =>
          fail (Errorf "failed to decode private key as an rsa private key")
      | Some blockBytes =>
          match x509_ParsePKCS1PrivateKey blockBytes with
          | Err err => fail err
          | Ok privateKey => mret (NewURLSigner keypairID privateKey)
          end
      end
  end.

Definition parse_duration : M Z :=
  let duration := 20 * Minute in
  d ← get_option "duration";
  match d with
  | Some (VDuration d) => mret d
  | Some (VString d) =>
      match time_ParseDuration d with
      | Err err => fail (Errorf1 "invalid duration: " err)
      | Ok dur => mret dur
      end
  | _ => mret duration
  end.

Definition deprecation_warning : string :=
  "cloudfront updatefrenquency is deprecated. Please use updatefrequency".

Definition parse_updatefrequency : M Z :=
  let updateFrequency := defaultUpdateFrequency in
  legacy ← get_option "updatefrenquency";
  _ ← match legacy with
      | Some v =>
          _ ← set_option "updatefrequency" v;
          emit (Warn deprecation_warning)
      | None => mret tt
      end;
  u ← get_option "updatefrequency";
  match u with
  | Some (VDuration u) => mret u
  | Some (VString u) =>
      match time_ParseDuration u with
      | Err err => fail (Errorf1 "invalid updatefrequency: " err)
      | Ok updateFreq => mret updateFreq
      end
  | _ => mret updateFrequency
  end.

Definition parse_iprangesurl : M string :=
  let ipRangesURL := defaultIPRangesURL in
  i ← get_option "iprangesurl";
  match i with
  | Some (VString iprangeurl) => mret iprangeurl
  | Some _ => fail (Errorf "iprangesurl must be a string")
  | None => mret ipRangesURL
  end.

(** The call [newAWSIPs(ctx, host, updateFrequency, awsRegion)] followed by
    [if err != nil { return nil, err }]; a nil slice is the empty list. *)
Definition call_newAWSIPs (host : string) (updateFrequency : Z)
    (awsRegion : list string) : M (option awsIPs) :=
  _ ← emit (CallNewAWSIPs host updateFrequency awsRegion);
  match newAWSIPs host updateFrequency awsRegion with
  | Err err => fail err
  | Ok ips => mret (Some ips)
  end.

Definition parse_ipfilteredby (ipRangesURL : string) (updateFrequency : Z)
  : M (option awsIPs) :=
  i ← get_option "ipfilteredby";
  match i with
  | None => mret None
  | Some (VString ipFilteredBy) =>
      let sel := ToLower (TrimSpace ipFilteredBy) in
      if String.eqb sel "" || String.eqb sel "none" then mret None
      else if String.eqb sel "aws" then
        call_newAWSIPs ipRangesURL updateFrequency []
      else if String.eqb sel "awsregion" then
        i ← get_option "awsregion";
        match i with
        | Some (VString regions) =>
            let awsRegion :=
              map (λ awsRegions, ToLower (TrimSpace awsRegions))
                  (strings.Split regions ",") in
            call_newAWSIPs ipRangesURL updateFrequency awsRegion
        | Some _ =>
            fail (Errorf "awsRegion must be a comma separated string of valid aws regions")
        | None => fail (Errorf "awsRegion is not defined")
        end
      else
        fail (Errorf "ipfilteredby only allows a string the following value: none|aws|awsregion")
  | Some _ =>
      fail (Errorf "ipfilteredby only allows a string with the following value: none|aws|awsregion")
  end.

Definition newCloudFrontStorageMiddleware (storageDriver : StorageDriver)
  : M cloudFrontStorageMiddleware :=
  baseURL ← parse_baseurl;
  pkPath ← parse_privatekey;
  keypairID ← parse_keypairid;
  urlSigner ← get_urlSigner pkPath keypairID;
  duration ← parse_duration;
  updateFrequency ← parse_updatefrequency;
  ipRangesURL ← parse_iprangesurl;
  awsIPs ← parse_ipfilteredby ipRangesURL updateFrequency;
  mret {| lh_StorageDriver := storageDriver;
          lh_urlSigner := urlSigner;
          lh_baseURL := baseURL;
          lh_duration := duration;
          lh_awsIPs := awsIPs |}.

(** A call of the constructor on an options map, from an empty trace. *)
Definition construct (storageDriver : StorageDriver)
    (opts : gmap string value) : result cloudFrontStorageMiddleware * cstate :=
  newCloudFrontStorageMiddleware storageDriver
    {| options := opts; trace := [] |}.

(** ** [RedirectURL] *)

Definition unsupported_warning : string :=
  "the CloudFront middleware does not support this backend storage driver".

(** [now] is the reading of [time.Now()], in nanoseconds;
    [time.Time.Add] is addition. *)
Definition RedirectURL (lh : cloudFrontStorageMiddleware) (now : Z)
    (r : Request) (path : string) : (string * option error) * list event :=
  match sd_S3BucketKey (lh_StorageDriver lh) with
  | None =>
      (sd_RedirectURL (lh_StorageDriver lh) r path,
       [Warn unsupported_warning; CallDriverRedirectURL path])
  | Some S3BucketKey =>
      if eligibleForS3 r (lh_awsIPs lh) then
        (sd_RedirectURL (lh_StorageDriver lh) r path,
         [CallDriverRedirectURL path])
      else
        let target := lh_baseURL lh +:+ S3BucketKey path in
        let expiry := now + lh_duration lh in
        match Sign (lh_urlSigner lh) target expiry with
        | (_, Some err) => (("", Some err), [CallSign target expiry])
        | (cfURL, None) => ((cfURL, None), [CallSign target expiry])
        end
  end.

End Middleware.

(** ** Method resolution on the embedding struct

    [cloudFrontStorageMiddleware] embeds the interface [StorageDriver] and
    declares one method, [RedirectURL]; a selector that names one of the
    struct's methods is the struct's own, any other is promoted from the
    embedded field. *)

Definition own_methods : list string := ["RedirectURL"].

Inductive resolution `{E : GoEnv} : Type :=
| Own
| Promoted (m : Args → Ret).

Definition method `{E : GoEnv} (lh : cloudFrontStorageMiddleware)
    (name : string) : resolution :=
  if existsb (String.eqb name) own_methods then Own
  else Promoted (sd_method (lh_StorageDriver lh) name).

(** ** A sample environment

    A small concrete [GoEnv] on which the statements below are evaluated:
    ASCII case and space handling, one readable key file, three duration
    literals, a range set given by the list of its addresses. *)

Module Sample.

Definition is_space (c : ascii) : bool :=
  existsb (Ascii.eqb c) [" "; "009"; "010"; "011"; "012"; "013"]%char.

Definition lower_ascii (c : ascii) : ascii :=
  let n := nat_of_ascii c in
  if ((65 <=? n) && (n <=? 90))%nat then ascii_of_nat (n + 32) else c.

Fixpoint lower (s : string) : string :=
  match s with
  | EmptyString => EmptyString
  | String c s' => String (lower_ascii c) (lower s')
  end.

Fixpoint trim_left (s : string) : string :=
  match s with
  | EmptyString => EmptyString
  | String c s' => if is_space c then trim_left s' else s
  end.

Definition trim (s : string) : string :=
  String.rev (trim_left (String.rev (trim_left s))).

Definition parse_url (s : string) : option error :=
  if strings.HasPrefix s ":" then Some "missing protocol scheme" else None.

Definition read_file (name : string) : result (list Byte.byte) :=
  if String.eqb name "/etc/docker/cloudfront.pem" then Ok []
  else Err ("open " +:+ name +:+ ": no such file or directory").

Definition duration_literal (s : string) : result Z :=
  if String.eqb s "20m" then Ok (20 * Minute)
  else if String.eqb s "1h" then Ok (60 * Minute)
  else if String.eqb s "12h" then Ok (720 * Minute)
  else Err ("time: invalid duration " +:+ s).

(** A request is its remote address; without a range set no request is
    eligible. *)
Definition eligible (r : string) (ips : option (list string)) : bool :=
  match ips with
  | Some l => existsb (String.eqb r) l
  | None => false
  end.

(** A range set: every region but the empty label contributes one
    address. *)
Definition new_ips (host : string) (updateFrequency : Z)
    (awsRegion : list string) : result (list string) :=
  if existsb (String.eqb "") awsRegion then Err "empty region"
  else Ok ("192.0.2.1" :: awsRegion).

Definition sign (keyID : string) (key : unit) (url : string)
    (expires : Z) : string * option error :=
  if strings.Contains url " " then ("", Some "unable to sign: invalid url")
  else (url +:+ "?Key-Pair-Id=" +:+ keyID, None).

#[export] Instance env : GoEnv := {|
  Request := string;
  PrivateKey := unit;
  awsIPs := list string;
  Args := string;
  Ret := string;
  ToLower := lower;
  TrimSpace := trim;
  url_Parse := parse_url;
  os_ReadFile := read_file;
  pem_Decode := λ b, Some b;
  x509_ParsePKCS1PrivateKey := λ _, Ok tt;
  time_ParseDuration := duration_literal;
  defaultUpdateFrequency := 720 * Minute;
  defaultIPRangesURL := "https://ip-ranges.amazonaws.com/ip-ranges.json";
  newAWSIPs := new_ips;
  eligibleForS3 := eligible;
  URLSigner_Sign := sign
|}.

(** An S3-like driver, with the bucket-key capability. *)
Definition s3 : StorageDriver := {|
  sd_RedirectURL := λ r path, ("https://bucket.s3.amazonaws.com" +:+ path, None);
  sd_method := λ name args, name +:+ "(" +:+ args +:+ ")";
  sd_S3BucketKey := Some (λ path, "registry" +:+ path)
|}.

(** A driver without the capability whose [RedirectURL] fails. *)
Definition inmemory : StorageDriver := {|
  sd_RedirectURL := λ r path, ("", Some "redirect not supported");
  sd_method := λ name args, name +:+ "(" +:+ args +:+ ")";
  sd_S3BucketKey := None
|}.

Definition required : gmap string value :=
  <["baseurl" := VString "d111111abcdef8.cloudfront.net"]>
  (<["privatekey" := VString "/etc/docker/cloudfront.pem"]>
  (<["keypairid" := VString "APKAEXAMPLE"]> ∅)).

Definition lh (driver : StorageDriver) (ips : option (list string))
  : cloudFrontStorageMiddleware := {|
  lh_StorageDriver := driver;
  lh_awsIPs := ips;
  lh_urlSigner := NewURLSigner "APKAEXAMPLE" tt;
  lh_baseURL := "https://d111111abcdef8.cloudfront.net/";
  lh_duration := 20 * Minute
|}.

End Sample.


(** ** What each stage of the constructor computes

    The stages of [newCloudFrontStorageMiddleware] as functions of the
    options they read; the lemmas [*_run] below show that the stages of the
    monadic constructor compute them. *)

(** "if the input contains no [://] the scheme [https://] is prepended". *)
Definition with_scheme (s : string) : string :=
  if strings.Contains s "://" then s else "https://" +:+ s.

(** "if it does not end in [/] a trailing [/] is appended". *)
Definition with_slash (s : string) : string :=
  if strings.HasSuffix s "/" then s else s +:+ "/".

(** The option is present and holds a string. *)
Definition is_string (o : option value) : bool :=
  match o with
  | Some (VString _) => true
  | _ => false
  end.

Definition is_call (ev : event) : bool :=
  match ev with
  | Warn _ => false
  | _ => true
  end.

(** The calls of a trace, without the log lines. *)
Definition calls (tr : list event) : list event := List.filter is_call tr.

Section Stages.

Context `{E : GoEnv}.

Definition baseurl_of (o : option value) : result string :=
  match o with
  | None => Err "no baseurl provided"
  | Some (VString s) =>
      match url_Parse (with_slash (with_scheme s)) with
      | Some err => Err ("invalid baseurl: " +:+ err)
      | None => Ok (with_slash (with_scheme s))
      end
  | Some _ => Err "baseurl must be a string"
  end.

Definition required_string (name : string) (o : option value)
  : result string :=
  match o with
  | None => Err ("no " +:+ name +:+ " provided")
  | Some (VString s) => Ok s
  | Some _ => Err (name +:+ " must be a string")
  end.

Definition signer_of (pkPath keypairID : string) : result URLSigner :=
  match os_ReadFile pkPath with
  | Err err => Err ("failed to read privatekey file: " +:+ err)
  | Ok pkBytes =>
      match pem_Decode pkBytes with
      | None => Err "failed to decode private key as an rsa private key"
      | Some blockBytes =>
          match x509_ParsePKCS1PrivateKey blockBytes with
          | Err err => Err err
          | Ok privateKey => Ok (NewURLSigner keypairID privateKey)
          end
      end
  end.

(** A duration option: a [time.Duration] as it is, a string through
    [time.ParseDuration], the default when the option is absent or of
    another type. *)
Definition duration_option (name : string) (default : Z) (o : option value)
  : result Z :=
  match o with
  | Some (VDuration d) => Ok d
  | Some (VString s) =>
      match time_ParseDuration s with
      | Err err => Err ("invalid " +:+ name +:+ ": " +:+ err)
      | Ok d => Ok d
      end
  | _ => Ok default
  end.

(** The options map and the trace once the legacy key has been copied. *)
Definition after_legacy (st : cstate) : cstate :=
  match options st !! "updatefrenquency" with
  | Some v =>
      {| options := <["updatefrequency" := v]> (options st);
         trace := trace st ++ [Warn deprecation_warning] |}
  | None => st
  end.

Definition host_of (o : option value) : result string :=
  match o with
  | Some (VString s) => Ok s
  | Some _ => Err "iprangesurl must be a string"
  | None => Ok defaultIPRangesURL
  end.

(** The filter option as the [switch] sees it. *)
Definition selector (s : string) : string := ToLower (TrimSpace s).

Definition started (host : string) (updateFrequency : Z)
    (awsRegion : list string) : result (option awsIPs) * list event :=
  (match newAWSIPs host updateFrequency awsRegion with
   | Err err => Err err
   | Ok ips => Ok (Some ips)
   end, [CallNewAWSIPs host updateFrequency awsRegion]).

Definition filter_of (opts : gmap string value) (host : string)
    (updateFrequency : Z) : result (option awsIPs) * list event :=
  match opts !! "ipfilteredby" with
  | None => (Ok None, [])
  | Some (VString s) =>
      if String.eqb (selector s) "" || String.eqb (selector s) "none"
      then (Ok None, [])
      else if String.eqb (selector s) "aws"
      then started host updateFrequency []
      else if String.eqb (selector s) "awsregion"
      then match opts !! "awsregion" with
           | Some (VString regions) =>
               started host updateFrequency
                 (map selector (strings.Split regions ","))
           | Some _ =>
               (Err "awsRegion must be a comma separated string of valid aws regions", [])
           | None => (Err "awsRegion is not defined", [])
           end
      else (Err "ipfilteredby only allows a string the following value: none|aws|awsregion", [])
  | Some _ =>
      (Err "ipfilteredby only allows a string with the following value: none|aws|awsregion", [])
  end.

(** The stages after the signer, from the state they start in. *)
Definition finish (storageDriver : StorageDriver) (baseURL : string)
    (urlSigner : URLSigner) (duration : Z) (st : cstate)
  : result cloudFrontStorageMiddleware * cstate :=
  let st1 := after_legacy st in
  match duration_option "updatefrequency" defaultUpdateFrequency
          (options st1 !! "updatefrequency") with
  | Err e => (Err e, st1)
  | Ok updateFrequency =>
      match host_of (options st1 !! "iprangesurl") with
      | Err e => (Err e, st1)
      | Ok host =>
          let '(r, evs) := filter_of (options st1) host updateFrequency in
          (match r with
           | Err e => Err e
           | Ok ips =>
               Ok {| lh_StorageDriver := storageDriver;
                     lh_urlSigner := urlSigner;
                     lh_baseURL := baseURL;
                     lh_duration := duration;
                     lh_awsIPs := ips |}
           end,
           {| options := options st1; trace := trace st1 ++ evs |})
      end
  end.

(** The constructor as one function of the options map. *)
Definition constructed (storageDriver : StorageDriver)
    (opts : gmap string value) : result cloudFrontStorageMiddleware * cstate :=
  let st := {| options := opts; trace := [] |} in
  match baseurl_of (opts !! "baseurl") with
  | Err e => (Err e, st)
  | Ok baseURL =>
  match required_string "privatekey" (opts !! "privatekey") with
  | Err e => (Err e, st)
  | Ok pkPath =>
  match required_string "keypairid" (opts !! "keypairid") with
  | Err e => (Err e, st)
  | Ok keypairID =>
  match signer_of pkPath keypairID with
  | Err e => (Err e, st)
  | Ok urlSigner =>
  match duration_option "duration" (20 * Minute) (opts !! "duration") with
  | Err e => (Err e, st)
  | Ok duration => finish storageDriver baseURL urlSigner duration st
  end end end end end.

(** The value the refresh interval is parsed from: the one under the legacy
    key when there is one, the one under [updatefrequency] otherwise. *)
Definition effective_frequency (opts : gmap string value) : option value :=
  options (after_legacy {| options := opts; trace := [] |})
    !! "updatefrequency".

(** The claim that every error of [RedirectURL] is one the signer of the
    middleware produces. *)
Definition errors_only_from_signer
    (lh : cloudFrontStorageMiddleware) (now : Z) (r : Request)
    (path : string) : Prop :=
  ∀ err, (RedirectURL lh now r path).1.2 = Some err →
         ∃ target expiry, (Sign (lh_urlSigner lh) target expiry).2 = Some err.

End Stages.

(** The keys the constructor reads as they are. *)
Definition plain_keys : list string :=
  ["baseurl"; "privatekey"; "keypairid"; "duration"; "iprangesurl";
   "ipfilteredby"; "awsregion"].


(** ** Notions for the further properties *)

(** [strings.Join(elems, sep)]. *)
Definition Join (elems : list string) (sep : string) : string :=
  String.concat sep elems.

(** A value that is neither a [string] nor a [time.Duration]: the two
    type switches of the constructor have no case for it. *)
Definition is_other (v : value) : bool :=
  match v with
  | VString _ | VDuration _ => false
  | _ => true
  end.

(** The calls [RedirectURL] can make. *)
Definition is_sign (ev : event) : bool :=
  match ev with
  | CallSign _ _ => true
  | _ => false
  end.

(** ** Absolute URLs

    A URL is absolute when it has a scheme ([url.URL.IsAbs]).  [net/url]
    finds the scheme by a scan from the first byte: letters, and after the
    first byte digits, [+], [-] and [.], up to a colon that is not the
    first byte; any other byte, and the end of the string, leave the URL
    without a scheme. *)

Definition is_letter (c : ascii) : bool :=
  let n := nat_of_ascii c in
  ((97 <=? n) && (n <=? 122) || (65 <=? n) && (n <=? 90))%nat.

Definition is_scheme_mark (c : ascii) : bool :=
  let n := nat_of_ascii c in
  ((48 <=? n) && (n <=? 57))%nat
  || Ascii.eqb c "+" || Ascii.eqb c "-" || Ascii.eqb c ".".

(** [first] tells that the byte read is the first of the URL. *)
Fixpoint scheme_scan (first : bool) (s : string) : bool :=
  match s with
  | EmptyString => false
  | String c s' =>
      if is_letter c then scheme_scan false s'
      else if is_scheme_mark c
      then (if first then false else scheme_scan false s')
      else if Ascii.eqb c ":" then negb first
      else false
  end.

Definition IsAbs (rawURL : string) : bool := scheme_scan true rawURL.




(** ** Facts on strings *)

Lemma length_append_slash (s : string) :
  String.length (s +:+ "/") = S (String.length s).
Proof. induction s as [|c s IH]; simpl; [reflexivity | now rewrite IH]. Qed.

Lemma substring_last_slash (s : string) :
  substring (String.length s) 1 (s +:+ "/") = "/".
Proof. induction s as [|c s IH]; simpl; [reflexivity | exact IH]. Qed.

Lemma HasSuffix_append_slash (s : string) :
  strings.HasSuffix (s +:+ "/") "/" = true.
Proof.
  unfold strings.HasSuffix. rewrite length_append_slash. simpl.
  rewrite Nat.sub_0_r, substring_last_slash. reflexivity.
Qed.

Lemma with_slash_ends_in_slash (s : string) :
  strings.HasSuffix (with_slash s) "/" = true.
Proof.
  unfold with_slash. destruct (strings.HasSuffix s "/") eqn:Hs.
  - exact Hs.
  - apply HasSuffix_append_slash.
Qed.

Lemma HasPrefix_append (pre s : string) :
  strings.HasPrefix (pre +:+ s) pre = true.
Proof.
  unfold strings.HasPrefix. induction pre as [|c pre IH]; simpl.
  - now destruct s.
  - destruct (ascii_dec c c); [exact IH | congruence].
Qed.




(** The empty input is the one case where the scheme step leaves a value
    that already ends in [/]. *)
Example normalize_empty : with_slash (with_scheme "") = "https://".
Proof. reflexivity. Qed.

Example normalize_host :
  with_slash (with_scheme "d111111abcdef8.cloudfront.net")
  = "https://d111111abcdef8.cloudfront.net/".
Proof. reflexivity. Qed.

Example normalize_url :
  with_slash (with_scheme "http://cdn.example.com/registry")
  = "http://cdn.example.com/registry/".
Proof. reflexivity. Qed.

Example Split_regions :
  strings.Split "us-east-1, EU-west-1,," ","
  = ["us-east-1"; " EU-west-1"; ""; ""].
Proof. reflexivity. Qed.

Example Split_no_separator : strings.Split "" "," = [""].
Proof. reflexivity. Qed.

Example Split_long_separator :
  strings.Split "a---b--" "--" = ["a"; "-b"; ""].
Proof. reflexivity. Qed.

Example Contains_examples :
  strings.Contains "s3://bucket" "://" = true ∧
  strings.Contains "host:/path" "://" = false ∧
  strings.Contains "" "" = true.
Proof. repeat split; reflexivity. Qed.

Example HasSuffix_examples :
  strings.HasSuffix "a/" "/" = true ∧
  strings.HasSuffix "" "/" = false ∧
  strings.HasSuffix "/a" "/" = false.
Proof. repeat split; reflexivity. Qed.

(** ** The stages of the monadic constructor, run *)

Ltac unfold_M :=
  unfold mbind, M_bind, mret, M_ret, fail, get_option, set_option, emit.

Section Runs.

Context `{E : GoEnv}.

Lemma bind_run {A B : Type} (m : M A) (f : A → M B) (st : cstate) :
  (m ≫= f) st =
  match m st with
  | (Ok a, st') => f a st'
  | (Err e, st') => (Err e, st')
  end.
Proof. reflexivity. Qed.

Lemma parse_baseurl_run (st : cstate) :
  parse_baseurl st = (baseurl_of (options st !! "baseurl"), st).
Proof.
  unfold parse_baseurl, baseurl_of, with_slash, with_scheme. unfold_M.
  destruct (options st !! "baseurl") as [[]|]; try reflexivity.
  destruct (strings.Contains s "://"); simpl;
    match goal with |- context [if negb ?b then _ else _] => destruct b end;
    simpl; match goal with |- context [url_Parse ?u] => destruct (url_Parse u) end;
    reflexivity.
Qed.

Lemma parse_privatekey_run (st : cstate) :
  parse_privatekey st
  = (required_string "privatekey" (options st !! "privatekey"), st).
Proof.
  unfold parse_privatekey, required_string. unfold_M.
  destruct (options st !! "privatekey") as [[]|]; reflexivity.
Qed.

Lemma parse_keypairid_run (st : cstate) :
  parse_keypairid st
  = (required_string "keypairid" (options st !! "keypairid"), st).
Proof.
  unfold parse_keypairid, required_string. unfold_M.
  destruct (options st !! "keypairid") as [[]|]; reflexivity.
Qed.

Lemma get_urlSigner_run (pkPath keypairID : string) (st : cstate) :
  get_urlSigner pkPath keypairID st = (signer_of pkPath keypairID, st).
Proof.
  unfold get_urlSigner, signer_of. unfold_M.
  destruct (os_ReadFile pkPath) as [b|]; [|reflexivity].
  destruct (pem_Decode b) as [k|]; [|reflexivity].
  destruct (x509_ParsePKCS1PrivateKey k); reflexivity.
Qed.

Lemma parse_duration_run (st : cstate) :
  parse_duration st
  = (duration_option "duration" (20 * Minute) (options st !! "duration"), st).
Proof.
  unfold parse_duration, duration_option. unfold_M.
  destruct (options st !! "duration") as [[]|]; try reflexivity.
  simpl. destruct (time_ParseDuration s); reflexivity.
Qed.

Lemma parse_updatefrequency_run (st : cstate) :
  parse_updatefrequency st
  = (duration_option "updatefrequency" defaultUpdateFrequency
       (options (after_legacy st) !! "updatefrequency"),
     after_legacy st).
Proof.
  unfold parse_updatefrequency, duration_option, after_legacy. unfold_M.
  destruct (options st !! "updatefrenquency") as [v|]; simpl.
  - destruct (<["updatefrequency" := v]> (options st) !! "updatefrequency")
      as [[]|]; try reflexivity.
    destruct (time_ParseDuration s); reflexivity.
  - destruct (options st !! "updatefrequency") as [[]|];
      try (destruct st; reflexivity).
    destruct (time_ParseDuration s); destruct st; reflexivity.
Qed.

Lemma parse_iprangesurl_run (st : cstate) :
  parse_iprangesurl st = (host_of (options st !! "iprangesurl"), st).
Proof.
  unfold parse_iprangesurl, host_of. unfold_M.
  destruct (options st !! "iprangesurl") as [[]|]; reflexivity.
Qed.

Lemma call_newAWSIPs_run (host : string) (f : Z) (rg : list string)
    (st : cstate) :
  call_newAWSIPs host f rg st
  = ((started host f rg).1,
     {| options := options st; trace := trace st ++ (started host f rg).2 |}).
Proof.
  unfold call_newAWSIPs, started. unfold_M. simpl.
  destruct (newAWSIPs host f rg); reflexivity.
Qed.

Lemma parse_ipfilteredby_run (host : string) (f : Z) (st : cstate) :
  parse_ipfilteredby host f st
  = ((filter_of (options st) host f).1,
     {| options := options st;
        trace := trace st ++ (filter_of (options st) host f).2 |}).
Proof.
  assert (Hnil : ∀ r : result (option awsIPs),
             (r, st) = (r, {| options := options st; trace := trace st ++ [] |})).
  { intros r. rewrite app_nil_r. destruct st; reflexivity. }
  unfold parse_ipfilteredby, filter_of, selector.
  rewrite bind_run. unfold get_option at 1.
  destruct (options st !! "ipfilteredby") as [[]|]; try apply Hnil.
  destruct (String.eqb _ "" || String.eqb _ "none"); [apply Hnil|].
  destruct (String.eqb _ "aws"); [apply call_newAWSIPs_run|].
  destruct (String.eqb _ "awsregion"); [|apply Hnil].
  rewrite bind_run. unfold get_option at 1.
  destruct (options st !! "awsregion") as [[]|]; try apply Hnil.
  apply call_newAWSIPs_run.
Qed.

(** The monadic constructor computes [constructed]. *)
Lemma construct_run (storageDriver : StorageDriver)
    (opts : gmap string value) :
  construct storageDriver opts = constructed storageDriver opts.
Proof.
  unfold construct, constructed, newCloudFrontStorageMiddleware.
  set (st := {| options := opts; trace := [] |}).
  change opts with (options st) at 1 2 3 4.
  rewrite bind_run, parse_baseurl_run.
  destruct (baseurl_of _) as [baseURL|]; [|reflexivity].
  rewrite bind_run, parse_privatekey_run.
  destruct (required_string "privatekey" _) as [pkPath|]; [|reflexivity].
  rewrite bind_run, parse_keypairid_run.
  destruct (required_string "keypairid" _) as [keypairID|]; [|reflexivity].
  rewrite bind_run, get_urlSigner_run.
  destruct (signer_of _ _) as [urlSigner|]; [|reflexivity].
  rewrite bind_run, parse_duration_run.
  destruct (duration_option "duration" _ _) as [duration|]; [|reflexivity].
  unfold finish.
  rewrite bind_run, parse_updatefrequency_run.
  destruct (duration_option "updatefrequency" _ _) as [freq|]; [|reflexivity].
  rewrite bind_run, parse_iprangesurl_run.
  destruct (host_of _) as [host|]; [|reflexivity].
  rewrite bind_run, parse_ipfilteredby_run.
  destruct (filter_of _ host freq) as [[ips|e] evs]; reflexivity.
Qed.

End Runs.

(** ** Properties of the stages *)

Section StageFacts.

Context `{E : GoEnv}.

Lemma after_legacy_lookup (st : cstate) (k : string) :
  k ≠ "updatefrequency" →
  options (after_legacy st) !! k = options st !! k.
Proof.
  intros Hk. unfold after_legacy.
  destruct (options st !! "updatefrenquency"); simpl; [|reflexivity].
  apply lookup_insert_ne. congruence.
Qed.

Lemma after_legacy_calls (st : cstate) :
  calls (trace (after_legacy st)) = calls (trace st).
Proof.
  unfold after_legacy, calls.
  destruct (options st !! "updatefrenquency"); simpl; [|reflexivity].
  rewrite List.filter_app. simpl. apply app_nil_r.
Qed.

(** The filter stage reads two options only. *)
Lemma filter_of_ext (opts1 opts2 : gmap string value) (host : string)
    (f : Z) :
  opts1 !! "ipfilteredby" = opts2 !! "ipfilteredby" →
  opts1 !! "awsregion" = opts2 !! "awsregion" →
  filter_of opts1 host f = filter_of opts2 host f.
Proof. intros H1 H2. unfold filter_of. rewrite H1, H2. reflexivity. Qed.

Lemma filter_of_after_legacy (st : cstate) (host : string) (f : Z) :
  filter_of (options (after_legacy st)) host f
  = filter_of (options st) host f.
Proof. apply filter_of_ext; apply after_legacy_lookup; discriminate. Qed.

(** The trace of the filter stage holds at most the one call, and holds it
    exactly when a range set is returned or [newAWSIPs] failed. *)
Lemma filter_of_disabled (opts : gmap string value) (host : string) (f : Z) :
  opts !! "ipfilteredby" = None ∨
  (∃ s, opts !! "ipfilteredby" = Some (VString s) ∧
        (selector s = "" ∨ selector s = "none")) →
  filter_of opts host f = (Ok None, []).
Proof.
  unfold filter_of. intros [-> | (s & -> & Hs)]; [reflexivity|].
  destruct Hs as [-> | ->]; reflexivity.
Qed.

Lemma filter_of_not_string (opts : gmap string value) (host : string)
    (f : Z) (v : value) :
  opts !! "ipfilteredby" = Some v → is_string (Some v) = false →
  ∃ e, filter_of opts host f = (Err e, []).
Proof.
  unfold filter_of. intros -> Hv. destruct v; try discriminate; eauto.
Qed.

Lemma filter_of_unknown (opts : gmap string value) (host : string)
    (f : Z) (s : string) :
  opts !! "ipfilteredby" = Some (VString s) →
  selector s ∉ ["" ; "none"; "aws"; "awsregion"] →
  ∃ e, filter_of opts host f = (Err e, []).
Proof.
  unfold filter_of. intros -> Hs.
  destruct (String.eqb_spec (selector s) "") as [H|_];
    [exfalso; apply Hs; rewrite H; set_solver|].
  destruct (String.eqb_spec (selector s) "none") as [H|_];
    [exfalso; apply Hs; rewrite H; set_solver|].
  destruct (String.eqb_spec (selector s) "aws") as [H|_];
    [exfalso; apply Hs; rewrite H; set_solver|].
  destruct (String.eqb_spec (selector s) "awsregion") as [H|_];
    [exfalso; apply Hs; rewrite H; set_solver|].
  simpl. eauto.
Qed.

Lemma filter_of_region_missing (opts : gmap string value) (host : string)
    (f : Z) (s : string) :
  opts !! "ipfilteredby" = Some (VString s) →
  selector s = "awsregion" →
  is_string (opts !! "awsregion") = false →
  ∃ e, filter_of opts host f = (Err e, []).
Proof.
  unfold filter_of. intros -> -> Hr. simpl.
  destruct (opts !! "awsregion") as [[]|]; try discriminate; eauto.
Qed.

(** A successful construction, stage by stage. *)
Lemma constructed_Ok_inv (storageDriver : StorageDriver)
    (opts : gmap string value) (m : cloudFrontStorageMiddleware)
    (st : cstate) :
  constructed storageDriver opts = (Ok m, st) →
  let st0 := {| options := opts; trace := [] |} in
  ∃ pkPath keypairID updateFrequency host,
    baseurl_of (opts !! "baseurl") = Ok (lh_baseURL m) ∧
    required_string "privatekey" (opts !! "privatekey") = Ok pkPath ∧
    required_string "keypairid" (opts !! "keypairid") = Ok keypairID ∧
    signer_of pkPath keypairID = Ok (lh_urlSigner m) ∧
    duration_option "duration" (20 * Minute) (opts !! "duration")
      = Ok (lh_duration m) ∧
    duration_option "updatefrequency" defaultUpdateFrequency
      (options (after_legacy st0) !! "updatefrequency") = Ok updateFrequency ∧
    host_of (opts !! "iprangesurl") = Ok host ∧
    (filter_of opts host updateFrequency).1 = Ok (lh_awsIPs m) ∧
    lh_StorageDriver m = storageDriver ∧
    st = {| options := options (after_legacy st0);
            trace := trace (after_legacy st0)
                       ++ (filter_of opts host updateFrequency).2 |}.
Proof.
  unfold constructed. intros H.
  set (st0 := {| options := opts; trace := [] |}) in *.
  destruct (baseurl_of _) as [baseURL|] eqn:Hb; [|discriminate].
  destruct (required_string "privatekey" _) as [pkPath|] eqn:Hp;
    [|discriminate].
  destruct (required_string "keypairid" _) as [keypairID|] eqn:Hk;
    [|discriminate].
  destruct (signer_of _ _) as [urlSigner|] eqn:Hs; [|discriminate].
  destruct (duration_option "duration" _ _) as [duration|] eqn:Hd;
    [|discriminate].
  unfold finish in H.
  destruct (duration_option "updatefrequency" _ _) as [freq|] eqn:Hu;
    [|discriminate].
  rewrite after_legacy_lookup in H by discriminate.
  destruct (host_of _) as [host|] eqn:Hh; [|discriminate].
  rewrite filter_of_after_legacy in H.
  destruct (filter_of (options st0) host freq) as [[ips|e] evs] eqn:Hf;
    [|discriminate].
  injection H as <- <-. exists pkPath, keypairID, freq, host.
  change (options st0) with opts in Hf. rewrite Hf. simpl.
  repeat split; assumption.
Qed.

(** Whatever the outcome, the trace holds the deprecation warning and the
    events of the filter stage, and nothing else. *)
Lemma constructed_trace (storageDriver : StorageDriver)
    (opts : gmap string value) (ev : event) :
  ev ∈ trace (constructed storageDriver opts).2 →
  ev = Warn deprecation_warning ∨
  ∃ host f, ev ∈ (filter_of opts host f).2.
Proof.
  unfold constructed.
  set (st0 := {| options := opts; trace := [] |}).
  assert (Hl : ∀ ev, ev ∈ trace (after_legacy st0) →
                     ev = Warn deprecation_warning).
  { unfold after_legacy. simpl. intros ev'.
    destruct (opts !! "updatefrenquency"); simpl; intros H.
    - apply list_elem_of_singleton in H. exact H.
    - inversion H. }
  destruct (baseurl_of _); [|set_solver].
  destruct (required_string "privatekey" _); [|set_solver].
  destruct (required_string "keypairid" _); [|set_solver].
  destruct (signer_of _ _); [|set_solver].
  destruct (duration_option "duration" _ _); [|set_solver].
  unfold finish.
  destruct (duration_option "updatefrequency" _ _) as [freq|];
    [|simpl; auto].
  destruct (host_of _) as [host|]; [|simpl; auto].
  rewrite filter_of_after_legacy. change (options st0) with opts.
  destruct (filter_of opts host freq) as [r evs] eqn:Hf. simpl.
  rewrite elem_of_app. intros [H|H]; [auto|].
  right. exists host, freq. rewrite Hf. exact H.
Qed.

(** A failing filter stage makes the construction fail. *)
Lemma constructed_filter_fails (storageDriver : StorageDriver)
    (opts : gmap string value) :
  (∀ host f, ∃ e, filter_of opts host f = (Err e, [])) →
  ∃ e, (constructed storageDriver opts).1 = Err e.
Proof.
  intros Hf. unfold constructed.
  destruct (baseurl_of _); [|simpl; eauto].
  destruct (required_string "privatekey" _); [|simpl; eauto].
  destruct (required_string "keypairid" _); [|simpl; eauto].
  destruct (signer_of _ _); [|simpl; eauto].
  destruct (duration_option "duration" _ _); [|simpl; eauto].
  unfold finish.
  destruct (duration_option "updatefrequency" _ _) as [freq|];
    [|simpl; eauto].
  destruct (host_of _) as [host|]; [|simpl; eauto].
  rewrite filter_of_after_legacy. simpl.
  destruct (Hf host freq) as [e ->]. simpl. eauto.
Qed.

End StageFacts.

(** ** The redirect decision *)

(** C1.  With a wrapped driver that supplies the bucket key: for a request
    that is not eligible for S3, [RedirectURL] calls the signer once, on the
    base URL followed by the driver's key for the path and on the current
    time plus the configured duration, and returns the signed URL the
    signer gives (or the signer's error); for an eligible request it
    returns what the wrapped driver's own [RedirectURL] returns and signs
    nothing. *)
Theorem redirect_decision `{E : GoEnv} (lh : cloudFrontStorageMiddleware)
    (now : Z) (r : Request) (path : string) (S3BucketKey : string → string) :
  sd_S3BucketKey (lh_StorageDriver lh) = Some S3BucketKey →
  let target := lh_baseURL lh +:+ S3BucketKey path in
  let expiry := now + lh_duration lh in
  (eligibleForS3 r (lh_awsIPs lh) = false →
     (RedirectURL lh now r path).2 = [CallSign target expiry] ∧
     (∀ cfURL, Sign (lh_urlSigner lh) target expiry = (cfURL, None) →
               (RedirectURL lh now r path).1 = (cfURL, None)) ∧
     (∀ cfURL err, Sign (lh_urlSigner lh) target expiry = (cfURL, Some err) →
               (RedirectURL lh now r path).1 = ("", Some err))) ∧
  (eligibleForS3 r (lh_awsIPs lh) = true →
     RedirectURL lh now r path
     = (sd_RedirectURL (lh_StorageDriver lh) r path,
        [CallDriverRedirectURL path])).
Proof.
  intros Hk target expiry. unfold RedirectURL. rewrite Hk.
  split; intros ->; [|reflexivity].
  fold target expiry.
  destruct (Sign (lh_urlSigner lh) target expiry) as [u [e|]]; simpl;
    repeat split; intros; congruence.
Qed.

Lemma redirect_decision_witness :
  let lh := Sample.lh Sample.s3 (Some ["10.0.0.1"]) in
  (RedirectURL lh 1000 "203.0.113.7" "/docker/blob").1
  = ("https://d111111abcdef8.cloudfront.net/registry/docker/blob?Key-Pair-Id=APKAEXAMPLE",
     None) ∧
  (RedirectURL lh 1000 "203.0.113.7" "/docker/blob").2
  = [CallSign "https://d111111abcdef8.cloudfront.net/registry/docker/blob"
       (1000 + 20 * Minute)] ∧
  RedirectURL lh 1000 "10.0.0.1" "/docker/blob"
  = (("https://bucket.s3.amazonaws.com/docker/blob", None),
     [CallDriverRedirectURL "/docker/blob"]).
Proof.
  intros lh.
  destruct (redirect_decision (E := Sample.env) lh 1000 "203.0.113.7"
              "/docker/blob" (λ path, "registry" +:+ path) eq_refl)
    as [Hedge _].
  destruct (Hedge eq_refl) as (Htrace & Hurl & _).
  destruct (redirect_decision (E := Sample.env) lh 1000 "10.0.0.1"
              "/docker/blob" (λ path, "registry" +:+ path) eq_refl)
    as [_ Horigin].
  split; [exact (Hurl _ eq_refl)|].
  split; [exact Htrace | exact (Horigin eq_refl)].
Defined.

(** C2.  With a wrapped driver that is not an [S3BucketKeyer],
    [RedirectURL] returns what the wrapped driver's [RedirectURL] returns,
    whatever the range set and the request are, and the signer is not
    called. *)
Theorem redirect_without_keyer `{E : GoEnv} (lh : cloudFrontStorageMiddleware)
    (now : Z) (r : Request) (path : string) :
  sd_S3BucketKey (lh_StorageDriver lh) = None →
  (RedirectURL lh now r path).1 = sd_RedirectURL (lh_StorageDriver lh) r path ∧
  (∀ target expiry, CallSign target expiry ∉ (RedirectURL lh now r path).2) ∧
  (∀ ips now' signer baseURL duration,
     (RedirectURL {| lh_StorageDriver := lh_StorageDriver lh;
                     lh_awsIPs := ips;
                     lh_urlSigner := signer;
                     lh_baseURL := baseURL;
                     lh_duration := duration |} now' r path).1
     = (RedirectURL lh now r path).1).
Proof.
  intros Hk. unfold RedirectURL. simpl. rewrite Hk. simpl.
  split; [reflexivity|]. split; [|reflexivity].
  intros target expiry H.
  apply elem_of_cons in H as [H|H]; [discriminate|].
  apply list_elem_of_singleton in H. discriminate.
Qed.

Lemma redirect_without_keyer_witness :
  (RedirectURL (Sample.lh Sample.inmemory (Some ["10.0.0.1"])) 1000
     "203.0.113.7" "/docker/blob").1
  = ("", Some "redirect not supported").
Proof.
  exact (proj1 (redirect_without_keyer (E := Sample.env)
                  (Sample.lh Sample.inmemory (Some ["10.0.0.1"])) 1000
                  "203.0.113.7" "/docker/blob" eq_refl)).
Defined.

(** ** The errors of [RedirectURL] *)

(** C3, as stated, fails: a wrapped driver that is not an [S3BucketKeyer]
    and whose [RedirectURL] fails makes the middleware return that error,
    which the signer never produces. *)
Lemma redirect_error_of_driver :
  ¬ errors_only_from_signer (E := Sample.env)
      (Sample.lh Sample.inmemory None) 1000 "203.0.113.7" "/docker/blob".
Proof.
  intros H. destruct (H "redirect not supported" eq_refl) as (target & expiry & Hs).
  unfold Sign in Hs. simpl in Hs. unfold Sample.sign in Hs.
  destruct (strings.Contains target " "); simpl in Hs; discriminate.
Qed.

(** C3, amended.  An error returned by [RedirectURL] is either the error of
    the signer, on the path that signs, or the error of the wrapped driver's
    [RedirectURL], on the two paths that delegate; each is returned as it
    was produced, and on the signing path every error of the signer is
    returned. *)
Theorem redirect_errors `{E : GoEnv} (lh : cloudFrontStorageMiddleware)
    (now : Z) (r : Request) (path : string) :
  (∀ err, (RedirectURL lh now r path).1.2 = Some err →
     (∃ S3BucketKey,
        sd_S3BucketKey (lh_StorageDriver lh) = Some S3BucketKey ∧
        eligibleForS3 r (lh_awsIPs lh) = false ∧
        (Sign (lh_urlSigner lh) (lh_baseURL lh +:+ S3BucketKey path)
              (now + lh_duration lh)).2 = Some err) ∨
     ((sd_S3BucketKey (lh_StorageDriver lh) = None ∨
       eligibleForS3 r (lh_awsIPs lh) = true) ∧
      (sd_RedirectURL (lh_StorageDriver lh) r path).2 = Some err ∧
      (RedirectURL lh now r path).1
      = sd_RedirectURL (lh_StorageDriver lh) r path)) ∧
  (∀ S3BucketKey err,
     sd_S3BucketKey (lh_StorageDriver lh) = Some S3BucketKey →
     eligibleForS3 r (lh_awsIPs lh) = false →
     (Sign (lh_urlSigner lh) (lh_baseURL lh +:+ S3BucketKey path)
           (now + lh_duration lh)).2 = Some err →
     (RedirectURL lh now r path).1 = ("", Some err)).
Proof.
  unfold RedirectURL. split.
  - intros err.
    destruct (sd_S3BucketKey (lh_StorageDriver lh)) as [key|] eqn:Hk.
    + destruct (eligibleForS3 r (lh_awsIPs lh)) eqn:He.
      * simpl. intros H. right. auto.
      * destruct (Sign _ _ _) as [u [e|]] eqn:Hs; simpl; [|discriminate].
        intros [= ->]. left. exists key.
        rewrite Hs. split; [reflexivity | split; reflexivity].
    + simpl. intros H. right. auto.
  - intros key err -> -> Hs.
    destruct (Sign _ _ _) as [u [e|]]; simpl in *; congruence.
Qed.

Lemma redirect_errors_witness :
  (RedirectURL (Sample.lh Sample.s3 None) 1000 "203.0.113.7" "/my blob").1
  = ("", Some "unable to sign: invalid url").
Proof.
  exact (proj2 (redirect_errors (E := Sample.env) (Sample.lh Sample.s3 None)
                  1000 "203.0.113.7" "/my blob")
           (λ path, "registry" +:+ path) "unable to sign: invalid url"
           eq_refl eq_refl eq_refl).
Defined.

(** ** The options of the constructor *)

(** C4.  Whenever one of [baseurl], [privatekey], [keypairid] is absent from
    the options map or bound to a value that is not a string, the
    constructor returns an error and no middleware; by then it has written
    nothing to the options, logged nothing and started no range set. *)
Theorem required_options_enforced `{E : GoEnv}
    (storageDriver : StorageDriver) (opts : gmap string value) :
  is_string (opts !! "baseurl") = false ∨
  is_string (opts !! "privatekey") = false ∨
  is_string (opts !! "keypairid") = false →
  ∃ err, construct storageDriver opts
         = (Err err, {| options := opts; trace := [] |}).
Proof.
  intros H. rewrite construct_run. unfold constructed.
  destruct (baseurl_of _) as [baseURL|] eqn:Hb; [|eauto].
  destruct (required_string "privatekey" _) as [pkPath|] eqn:Hp; [|eauto].
  destruct (required_string "keypairid" _) as [keypairID|] eqn:Hk; [|eauto].
  exfalso. unfold baseurl_of, required_string in *.
  destruct (opts !! "baseurl") as [[]|]; try discriminate.
  destruct (opts !! "privatekey") as [[]|]; try discriminate.
  destruct (opts !! "keypairid") as [[]|]; try discriminate.
  simpl in H. intuition discriminate.
Qed.

Lemma required_options_enforced_witness :
  is_string (delete "keypairid" Sample.required !! "keypairid") = false ∧
  construct Sample.s3 (delete "keypairid" Sample.required)
  = (Err "no keypairid provided",
     {| options := delete "keypairid" Sample.required; trace := [] |}).
Proof.
  split; [vm_compute; reflexivity|].
  destruct (required_options_enforced (E := Sample.env) Sample.s3
              (delete "keypairid" Sample.required)) as [err Herr].
  - right; right. vm_compute. reflexivity.
  - rewrite Herr. f_equal. f_equal.
    assert (Hv : (construct Sample.s3 (delete "keypairid" Sample.required)).1
                 = Err "no keypairid provided") by (vm_compute; reflexivity).
    rewrite Herr in Hv. simpl in Hv. congruence.
Defined.

(** C6.  A middleware constructed from options without [duration] has a
    duration of 20 minutes, and one constructed from options with it has
    the [time.Duration] given, or the one [time.ParseDuration] makes of the
    string given (20 minutes for a value of another type).  Every signature
    [RedirectURL] asks for, on any middleware and at any time, expires at
    the time of that call plus the duration of the middleware, so for a
    constructed middleware at the time of the call plus the duration of the
    options: two calls on the same middleware at two times get two expiry
    instants, nothing of the first call being kept. *)
Theorem expiry_is_now_plus_duration `{E : GoEnv} :
  (∀ (storageDriver : StorageDriver) (opts : gmap string value)
     (m : cloudFrontStorageMiddleware) (st : cstate),
     opts !! "duration" = None →
     construct storageDriver opts = (Ok m, st) →
     lh_duration m = 20 * Minute ∧ 20 * Minute = 20 * 60 * 10 ^ 9) ∧
  (∀ (lh : cloudFrontStorageMiddleware) (now : Z) (r : Request)
     (path target : string) (expiry : Z),
     CallSign target expiry ∈ (RedirectURL lh now r path).2 →
     expiry = now + lh_duration lh) ∧
  (∀ (lh : cloudFrontStorageMiddleware) (now1 now2 : Z) (r1 r2 : Request)
     (path1 path2 : string) (S3BucketKey : string → string),
     sd_S3BucketKey (lh_StorageDriver lh) = Some S3BucketKey →
     eligibleForS3 r1 (lh_awsIPs lh) = false →
     eligibleForS3 r2 (lh_awsIPs lh) = false →
     (RedirectURL lh now1 r1 path1).2
     = [CallSign (lh_baseURL lh +:+ S3BucketKey path1)
                 (now1 + lh_duration lh)] ∧
     (RedirectURL lh now2 r2 path2).2
     = [CallSign (lh_baseURL lh +:+ S3BucketKey path2)
                 (now2 + lh_duration lh)]) ∧
  (∀ (storageDriver : StorageDriver) (opts : gmap string value)
     (m : cloudFrontStorageMiddleware) (st : cstate),
     construct storageDriver opts = (Ok m, st) →
     (∀ d, opts !! "duration" = Some (VDuration d) → lh_duration m = d) ∧
     (∀ s, opts !! "duration" = Some (VString s) →
           time_ParseDuration s = Ok (lh_duration m)) ∧
     (∀ v, opts !! "duration" = Some v → is_other v = true →
           lh_duration m = 20 * Minute)) ∧
  (∀ (storageDriver : StorageDriver) (opts : gmap string value)
     (m : cloudFrontStorageMiddleware) (st : cstate) (now : Z)
     (r : Request) (path target : string) (expiry d : Z),
     construct storageDriver opts = (Ok m, st) →
     opts !! "duration" = Some (VDuration d) ∨
     (∃ s, opts !! "duration" = Some (VString s) ∧
           time_ParseDuration s = Ok d) ∨
     (opts !! "duration" = None ∧ d = 20 * Minute) →
     CallSign target expiry ∈ (RedirectURL m now r path).2 →
     expiry = now + d).
Proof.
  assert (Hexp : ∀ (lh : cloudFrontStorageMiddleware) (now : Z) (r : Request)
                   (path target : string) (expiry : Z),
             CallSign target expiry ∈ (RedirectURL lh now r path).2 →
             expiry = now + lh_duration lh).
  { intros lh now r path target expiry. unfold RedirectURL.
    destruct (sd_S3BucketKey (lh_StorageDriver lh)) as [key|]; simpl.
    + destruct (eligibleForS3 r (lh_awsIPs lh)); simpl.
      * intros H. apply list_elem_of_singleton in H. discriminate.
      * destruct (Sign _ _ _) as [u [e|]]; simpl; intros H;
          apply list_elem_of_singleton in H; congruence.
    + intros H. apply elem_of_cons in H as [H|H]; [discriminate|].
      apply list_elem_of_singleton in H. discriminate. }
  assert (Hdur : ∀ (storageDriver : StorageDriver)
                   (opts : gmap string value)
                   (m : cloudFrontStorageMiddleware) (st : cstate),
             construct storageDriver opts = (Ok m, st) →
             duration_option "duration" (20 * Minute) (opts !! "duration")
             = Ok (lh_duration m)).
  { intros drv opts m st Hc. rewrite construct_run in Hc.
    apply constructed_Ok_inv in Hc as (_ & _ & _ & _ & _ & _ & _ & _ & H & _).
    exact H. }
  split; [|split; [exact Hexp|split; [|split]]].
  - intros drv opts m st Hd Hc. apply Hdur in Hc.
    rewrite Hd in Hc. simpl in Hc. injection Hc as <-.
    split; reflexivity.
  - intros lh now1 now2 r1 r2 path1 path2 key Hk H1 H2.
    unfold RedirectURL. rewrite Hk, H1, H2.
    split; destruct (Sign _ _ _) as [u [e|]]; reflexivity.
  - intros drv opts m st Hc. apply Hdur in Hc. split; [|split].
    + intros d Hd. rewrite Hd in Hc. simpl in Hc. congruence.
    + intros s Hs. rewrite Hs in Hc. simpl in Hc.
      destruct (time_ParseDuration s); [congruence | discriminate].
    + intros v Hv Ho. rewrite Hv in Hc.
      destruct v; try discriminate; simpl in Hc; congruence.
  - intros drv opts m st now r path target expiry d Hc Hd Hin.
    apply Hexp in Hin. subst expiry. f_equal.
    apply Hdur in Hc.
    destruct Hd as [Hd | [(s & Hs & Hp) | [Hn ->]]].
    + rewrite Hd in Hc. simpl in Hc. congruence.
    + rewrite Hs in Hc. simpl in Hc. rewrite Hp in Hc. congruence.
    + rewrite Hn in Hc. simpl in Hc. congruence.
Qed.

Lemma expiry_is_now_plus_duration_witness :
  (∃ m st, construct Sample.s3 Sample.required = (Ok m, st) ∧
           lh_duration m = 1200000000000) ∧
  (RedirectURL (Sample.lh Sample.s3 None) 1000 "203.0.113.7" "/a").2
  = [CallSign "https://d111111abcdef8.cloudfront.net/registry/a"
       1200000001000] ∧
  (RedirectURL (Sample.lh Sample.s3 None) 5000 "203.0.113.7" "/a").2
  = [CallSign "https://d111111abcdef8.cloudfront.net/registry/a"
       1200000005000] ∧
  (∃ m st, construct Sample.s3
             (<["duration" := VString "1h"]> Sample.required) = (Ok m, st) ∧
           lh_duration m = 60 * Minute ∧
           ∀ target expiry,
             CallSign target expiry
             ∈ (RedirectURL m 1000 "203.0.113.7" "/a").2 →
             expiry = 1000 + 60 * Minute) ∧
  (∃ m st, construct Sample.s3
             (<["duration" := VDuration (5 * Minute)]> Sample.required)
           = (Ok m, st) ∧
           lh_duration m = 5 * Minute).
Proof.
  destruct (expiry_is_now_plus_duration (E := Sample.env))
    as (Hd & _ & Ht & Hopt & Hend).
  split; [|split; [|split; [|split]]].
  - destruct (construct Sample.s3 Sample.required) as [[m|e] st] eqn:Hc;
      [|vm_compute in Hc; discriminate].
    exists m, st. split; [reflexivity|].
    destruct (Hd Sample.s3 Sample.required m st) as [-> _];
      [vm_compute; reflexivity | exact Hc | reflexivity].
  - exact (proj1 (Ht (Sample.lh Sample.s3 None) 1000 5000 "203.0.113.7"
                     "203.0.113.7" "/a" "/a" (λ path, "registry" +:+ path)
                     eq_refl eq_refl eq_refl)).
  - exact (proj2 (Ht (Sample.lh Sample.s3 None) 1000 5000 "203.0.113.7"
                     "203.0.113.7" "/a" "/a" (λ path, "registry" +:+ path)
                     eq_refl eq_refl eq_refl)).
  - destruct (construct Sample.s3
                (<["duration" := VString "1h"]> Sample.required))
      as [[m|e] st] eqn:Hc; [|vm_compute in Hc; discriminate].
    exists m, st. split; [reflexivity|].
    assert (Hp : Sample.duration_literal "1h" = Ok (lh_duration m)).
    { apply (proj1 (proj2 (Hopt _ _ m st Hc)) "1h").
      vm_compute. reflexivity. }
    change (Ok (60 * Minute) = Ok (lh_duration m)) in Hp.
    split; [congruence|].
    intros target expiry Hin.
    apply (Hend _ _ m st 1000 "203.0.113.7" "/a" target expiry
             (60 * Minute) Hc); [|exact Hin].
    right. left. exists "1h".
    split; vm_compute; reflexivity.
  - destruct (construct Sample.s3
                (<["duration" := VDuration (5 * Minute)]> Sample.required))
      as [[m|e] st] eqn:Hc; [|vm_compute in Hc; discriminate].
    exists m, st. split; [reflexivity|].
    apply (proj1 (Hopt _ _ m st Hc)). vm_compute. reflexivity.
Defined.

(** ** The two spellings of the refresh interval option *)

Section Frequency.

Context `{E : GoEnv}.

Lemma effective_frequency_legacy (opts : gmap string value) (v : value) :
  opts !! "updatefrenquency" = Some v → effective_frequency opts = Some v.
Proof.
  intros H. unfold effective_frequency, after_legacy. simpl. rewrite H. simpl.
  apply lookup_insert_eq.
Qed.

Lemma effective_frequency_plain (opts : gmap string value) :
  opts !! "updatefrenquency" = None →
  effective_frequency opts = opts !! "updatefrequency".
Proof.
  intros H. unfold effective_frequency, after_legacy. simpl. rewrite H.
  reflexivity.
Qed.

Lemma plain_keys_not_frequency (k : string) :
  k ∈ plain_keys → k ≠ "updatefrequency" ∧ k ≠ "updatefrenquency".
Proof.
  unfold plain_keys. intros H.
  repeat (apply elem_of_cons in H as [-> | H]; [split; discriminate|]).
  inversion H.
Qed.

(** The outcome of the constructor depends on the options through the plain
    keys and the effective refresh interval value only. *)
Lemma constructed_agree (storageDriver : StorageDriver)
    (opts1 opts2 : gmap string value) :
  (∀ k, k ∈ plain_keys → opts1 !! k = opts2 !! k) →
  effective_frequency opts1 = effective_frequency opts2 →
  (constructed storageDriver opts1).1 = (constructed storageDriver opts2).1 ∧
  calls (trace (constructed storageDriver opts1).2)
  = calls (trace (constructed storageDriver opts2).2).
Proof.
  intros Hk Hf. unfold constructed.
  rewrite (Hk "baseurl"), (Hk "privatekey"), (Hk "keypairid"),
    (Hk "duration") by (unfold plain_keys; set_solver).
  destruct (baseurl_of _); [|split; reflexivity].
  destruct (required_string "privatekey" _); [|split; reflexivity].
  destruct (required_string "keypairid" _); [|split; reflexivity].
  destruct (signer_of _ _); [|split; reflexivity].
  destruct (duration_option "duration" _ _); [|split; reflexivity].
  unfold finish. fold (effective_frequency opts1).
  fold (effective_frequency opts2). rewrite Hf.
  set (st1 := {| options := opts1; trace := [] |}).
  set (st2 := {| options := opts2; trace := [] |}).
  assert (Hc : calls (trace (after_legacy st1))
               = calls (trace (after_legacy st2)))
    by (rewrite !after_legacy_calls; reflexivity).
  destruct (duration_option "updatefrequency" _ _) as [freq|];
    [|split; [reflexivity | exact Hc]].
  rewrite !after_legacy_lookup by discriminate. simpl.
  rewrite (Hk "iprangesurl") by (unfold plain_keys; set_solver).
  destruct (host_of _) as [host|]; [|split; [reflexivity | exact Hc]].
  rewrite !filter_of_after_legacy. simpl.
  rewrite (filter_of_ext opts1 opts2)
    by (apply Hk; unfold plain_keys; set_solver).
  destruct (filter_of opts2 host freq) as [r evs]. simpl.
  split; [reflexivity|].
  unfold calls in *. rewrite !List.filter_app, Hc. reflexivity.
Qed.

(** The warning is the first thing the constructor logs once the five
    stages before the refresh interval have passed. *)
Lemma constructed_warns (storageDriver : StorageDriver)
    (opts : gmap string value) (v : value) :
  opts !! "updatefrenquency" = Some v →
  (∃ evs, trace (constructed storageDriver opts).2
          = Warn deprecation_warning :: evs) ∨
  (∃ err, constructed storageDriver opts
          = (Err err, {| options := opts; trace := [] |})).
Proof.
  intros Hv. unfold constructed.
  destruct (baseurl_of _); [|eauto].
  destruct (required_string "privatekey" _); [|eauto].
  destruct (required_string "keypairid" _); [|eauto].
  destruct (signer_of _ _); [|eauto].
  destruct (duration_option "duration" _ _); [|eauto].
  left. unfold finish, after_legacy. simpl. rewrite Hv. simpl.
  destruct (duration_option "updatefrequency" _ _); [|simpl; eauto].
  destruct (host_of _); [|simpl; eauto].
  destruct (filter_of _ _ _). simpl. eauto.
Qed.

End Frequency.

(** C7.  With a value [v] under the legacy key [updatefrenquency], the
    constructor behaves as on the options that hold [v] under
    [updatefrequency] and have no legacy key: the refresh interval stage
    gives the same interval or the same error, the constructor returns the
    same middleware or the same error, and makes the same calls.  The
    refresh interval stage logs the deprecation warning; the constructor
    logs it first of all unless one of the earlier stages has already
    failed, and so whenever it returns a middleware. *)
Theorem legacy_key_honoured `{E : GoEnv}
    (storageDriver : StorageDriver) (opts : gmap string value) (v : value) :
  opts !! "updatefrenquency" = Some v →
  let opts' := <["updatefrequency" := v]> (delete "updatefrenquency" opts) in
  (∀ tr, (parse_updatefrequency {| options := opts; trace := tr |}).1
         = (parse_updatefrequency {| options := opts'; trace := tr |}).1) ∧
  (construct storageDriver opts).1 = (construct storageDriver opts').1 ∧
  calls (trace (construct storageDriver opts).2)
  = calls (trace (construct storageDriver opts').2) ∧
  (∀ tr : list event,
     trace (parse_updatefrequency {| options := opts; trace := tr |}).2
     = (tr ++ [Warn deprecation_warning])%list) ∧
  ((∃ evs, trace (construct storageDriver opts).2
           = Warn deprecation_warning :: evs) ∨
   (∃ err, construct storageDriver opts
           = (Err err, {| options := opts; trace := [] |}))) ∧
  (∀ m st, construct storageDriver opts = (Ok m, st) →
           Warn deprecation_warning ∈ trace st).
Proof.
  intros Hv opts'.
  assert (Hl' : opts' !! "updatefrenquency" = None).
  { unfold opts'. rewrite lookup_insert_ne by discriminate.
    apply lookup_delete_eq. }
  assert (Hf' : opts' !! "updatefrequency" = Some v)
    by apply lookup_insert_eq.
  assert (Hw := constructed_warns storageDriver opts v Hv).
  rewrite !construct_run.
  split; [|split; [|split; [|split; [|split]]]].
  - intros tr. rewrite !parse_updatefrequency_run. simpl.
    unfold after_legacy. simpl. rewrite Hv, Hl'. simpl.
    rewrite Hf', lookup_insert_eq. reflexivity.
  - apply constructed_agree.
    + intros k Hk. unfold opts'.
      destruct (plain_keys_not_frequency k Hk) as [H1 H2].
      rewrite lookup_insert_ne, lookup_delete_ne by congruence. reflexivity.
    + rewrite (effective_frequency_legacy opts v Hv).
      rewrite (effective_frequency_plain opts' Hl'). symmetry. exact Hf'.
  - apply constructed_agree.
    + intros k Hk. unfold opts'.
      destruct (plain_keys_not_frequency k Hk) as [H1 H2].
      rewrite lookup_insert_ne, lookup_delete_ne by congruence. reflexivity.
    + rewrite (effective_frequency_legacy opts v Hv).
      rewrite (effective_frequency_plain opts' Hl'). symmetry. exact Hf'.
  - intros tr. rewrite parse_updatefrequency_run. unfold after_legacy.
    simpl. rewrite Hv. reflexivity.
  - exact Hw.
  - intros m st Hc. destruct Hw as [[evs Hevs] | [err Herr]].
    + rewrite Hc in Hevs. simpl in Hevs. rewrite Hevs. set_solver.
    + rewrite Hc in Herr. discriminate.
Qed.

Lemma legacy_key_honoured_witness :
  let opts := <["updatefrenquency" := VString "1h"]>
                (<["ipfilteredby" := VString "aws"]> Sample.required) in
  let opts' := <["updatefrequency" := VString "1h"]>
                 (delete "updatefrenquency" opts) in
  (construct Sample.s3 opts).1 = (construct Sample.s3 opts').1 ∧
  calls (trace (construct Sample.s3 opts).2)
  = [CallNewAWSIPs "https://ip-ranges.amazonaws.com/ip-ranges.json"
       (60 * Minute) []] ∧
  Warn deprecation_warning ∈ trace (construct Sample.s3 opts).2.
Proof.
  intros opts opts'.
  destruct (legacy_key_honoured (E := Sample.env) Sample.s3 opts
              (VString "1h")) as (_ & Hr & Hc & _ & Hw & _).
  - vm_compute. reflexivity.
  - split; [exact Hr|]. split.
    + rewrite Hc. vm_compute. reflexivity.
    + destruct Hw as [[evs ->] | [err Herr]].
      * apply elem_of_cons. left. reflexivity.
      * vm_compute in Herr. discriminate.
Defined.



(** ** The filter option *)

(** C8.  The filter option is compared, trimmed and in lower case, with the
    empty string, [none], [aws] and [awsregion]: a string that gives none
    of the four, and a value that is not a string, make the constructor
    return an error; so does [awsregion] when the option [awsregion] is
    absent or not a string; and when the filter option is absent or gives
    [none] (or the empty string), [newAWSIPs] is not called and a middleware
    that is returned has no range set. *)
Theorem ipfilteredby_checked `{E : GoEnv}
    (storageDriver : StorageDriver) (opts : gmap string value) :
  (∀ s, opts !! "ipfilteredby" = Some (VString s) →
        selector s ∉ [""; "none"; "aws"; "awsregion"] →
        ∃ err, (construct storageDriver opts).1 = Err err) ∧
  (∀ v, opts !! "ipfilteredby" = Some v → is_string (Some v) = false →
        ∃ err, (construct storageDriver opts).1 = Err err) ∧
  (∀ s, opts !! "ipfilteredby" = Some (VString s) →
        selector s = "awsregion" →
        is_string (opts !! "awsregion") = false →
        ∃ err, (construct storageDriver opts).1 = Err err) ∧
  (opts !! "ipfilteredby" = None ∨
   (∃ s, opts !! "ipfilteredby" = Some (VString s) ∧
         (selector s = "" ∨ selector s = "none")) →
   (∀ host f rg,
      CallNewAWSIPs host f rg ∉ trace (construct storageDriver opts).2) ∧
   (∀ m, (construct storageDriver opts).1 = Ok m → lh_awsIPs m = None)).
Proof.
  rewrite construct_run. split; [|split; [|split]].
  - intros s Hs Hsel. apply constructed_filter_fails. intros host f.
    exact (filter_of_unknown opts host f s Hs Hsel).
  - intros v Hv Hn. apply constructed_filter_fails. intros host f.
    exact (filter_of_not_string opts host f v Hv Hn).
  - intros s Hs Hsel Hr. apply constructed_filter_fails. intros host f.
    exact (filter_of_region_missing opts host f s Hs Hsel Hr).
  - intros Hoff. split.
    + intros host f rg Hin.
      apply constructed_trace in Hin as [Hin | (host' & f' & Hin)];
        [discriminate|].
      rewrite (filter_of_disabled opts host' f' Hoff) in Hin. inversion Hin.
    + intros m Hm.
      destruct (constructed storageDriver opts) as [r st] eqn:Hc.
      simpl in Hm. subst r.
      apply constructed_Ok_inv in Hc
        as (_ & _ & f & host & _ & _ & _ & _ & _ & _ & _ & Hf & _).
      rewrite (filter_of_disabled opts host f Hoff) in Hf. simpl in Hf.
      congruence.
Qed.

Lemma ipfilteredby_checked_witness :
  (∃ err, (construct Sample.s3
             (<["ipfilteredby" := VString "azure"]> Sample.required)).1
          = Err err) ∧
  (∃ err, (construct Sample.s3
             (<["ipfilteredby" := VBool true]> Sample.required)).1
          = Err err) ∧
  (∃ err, (construct Sample.s3
             (<["ipfilteredby" := VString " AWSRegion "]> Sample.required)).1
          = Err err) ∧
  (∀ m, (construct Sample.s3
           (<["ipfilteredby" := VString "None"]> Sample.required)).1 = Ok m →
        lh_awsIPs m = None).
Proof.
  split; [|split; [|split]].
  - apply (proj1 (ipfilteredby_checked (E := Sample.env) Sample.s3
                    (<["ipfilteredby" := VString "azure"]> Sample.required))
             "azure").
    + vm_compute. reflexivity.
    + vm_compute. intros H.
      repeat (apply elem_of_cons in H as [H|H]; [discriminate|]).
      inversion H.
  - apply (proj1 (proj2 (ipfilteredby_checked (E := Sample.env) Sample.s3
                    (<["ipfilteredby" := VBool true]> Sample.required)))
             (VBool true)).
    + vm_compute. reflexivity.
    + reflexivity.
  - apply (proj1 (proj2 (proj2 (ipfilteredby_checked (E := Sample.env)
                    Sample.s3
                    (<["ipfilteredby" := VString " AWSRegion "]>
                       Sample.required))))
             " AWSRegion ").
    + vm_compute. reflexivity.
    + vm_compute. reflexivity.
    + vm_compute. reflexivity.
  - apply (proj2 (proj2 (proj2 (ipfilteredby_checked (E := Sample.env)
                    Sample.s3
                    (<["ipfilteredby" := VString "None"]> Sample.required))))).
    right. exists "None". split; vm_compute; auto.
Defined.

(** ** The methods the middleware does not declare *)

(** C10.  [RedirectURL] is the one method the middleware declares; every
    other method name resolves to the method of that name of the embedded
    driver, so a call gives what the wrapped driver gives on the same
    arguments; and the driver a constructed middleware embeds is the one
    the constructor was given. *)
Theorem other_methods_promoted `{E : GoEnv}
    (lh : cloudFrontStorageMiddleware) (name : string) :
  name ≠ "RedirectURL" →
  method lh name = Promoted (sd_method (lh_StorageDriver lh) name) ∧
  method lh "RedirectURL" = Own ∧
  (∀ storageDriver opts st,
     construct storageDriver opts = (Ok lh, st) →
     method lh name = Promoted (sd_method storageDriver name)).
Proof.
  intros Hn.
  assert (Hm : method lh name
               = Promoted (sd_method (lh_StorageDriver lh) name)).
  { unfold method, own_methods. simpl.
    destruct (String.eqb_spec name "RedirectURL"); [contradiction|].
    reflexivity. }
  split; [exact Hm|]. split; [reflexivity|].
  intros drv opts st Hc. rewrite construct_run in Hc.
  apply constructed_Ok_inv in Hc
    as (_ & _ & _ & _ & _ & _ & _ & _ & _ & _ & _ & _ & Hd & _).
  rewrite Hm, Hd. reflexivity.
Qed.

Lemma other_methods_promoted_witness :
  ∃ m, method (Sample.lh Sample.s3 None) "GetContent" = Promoted m ∧
       m "/docker/blob" = "GetContent(/docker/blob)".
Proof.
  eexists. split.
  - apply (other_methods_promoted (E := Sample.env)). discriminate.
  - reflexivity.
Defined.

(** * Further properties of the constructor and of [RedirectURL] *)

(** ** Splitting and joining *)

Lemma rev_app_append (s acc t : string) :
  String.rev_app s acc +:+ t = String.rev_app s (acc +:+ t).
Proof.
  revert acc. induction s as [|c s IH]; intros acc; [reflexivity|].
  simpl. apply IH.
Qed.

Lemma HasPrefix_inv (s pre : string) :
  strings.HasPrefix s pre = true → ∃ rest, s = pre +:+ rest.
Proof.
  unfold strings.HasPrefix. revert s.
  induction pre as [|c pre IH]; intros s H.
  - exists s. reflexivity.
  - destruct s as [|d s]; [discriminate|]. simpl in H.
    destruct (ascii_dec c d) as [->|]; [|discriminate].
    destruct (IH s H) as [rest ->]. exists rest. reflexivity.
Qed.

(** The bytes of a separator still to be passed over are passed over. *)
Lemma split_from_skip (sep t cur s : string) :
  strings.split_from sep (String.length t) cur (t +:+ s)
  = strings.split_from sep O cur s.
Proof. induction t as [|c t IH]; [reflexivity | exact IH]. Qed.

Lemma split_from_not_nil (sep : string) (skip : nat) (cur s : string) :
  strings.split_from sep skip cur s ≠ [].
Proof.
  revert skip cur. induction s as [|c s IH]; intros skip cur; simpl;
    [discriminate|].
  destruct skip; [|apply IH].
  match goal with |- context [if ?b then _ else _] => destruct b end;
    [discriminate | apply IH].
Qed.

Lemma Join_cons (x : string) (l : list string) (sep : string) :
  l ≠ [] → Join (x :: l) sep = x +:+ sep +:+ Join l sep.
Proof. intros Hl. destruct l; [congruence | reflexivity]. Qed.

Lemma length_append (s t : string) :
  String.length (s +:+ t) = (String.length s + String.length t)%nat.
Proof. induction s as [|c s IH]; simpl; [reflexivity | now rewrite IH]. Qed.

Lemma Join_split_from (sep : string) (n : nat) :
  sep ≠ "" →
  ∀ s cur, (String.length s ≤ n)%nat →
    Join (strings.split_from sep O cur s) sep = String.rev_app cur s.
Proof.
  intros Hsep. induction n as [|n IH]; intros s cur Hn.
  - destruct s; [reflexivity | simpl in Hn; lia].
  - destruct s as [|c s]; [reflexivity|].
    change (strings.split_from sep O cur (String c s))
      with (if strings.HasPrefix (String c s) sep
            then String.rev cur
                   :: strings.split_from sep (String.length sep - 1)
                        EmptyString s
            else strings.split_from sep O (String c cur) s).
    destruct (strings.HasPrefix (String c s) sep) eqn:Hp.
    + apply HasPrefix_inv in Hp as [rest Hrest].
      destruct sep as [|d t]; [congruence|].
      injection Hrest as Hc Hs. subst c s.
      replace (String.length (String d t) - 1)%nat with (String.length t)
        by (simpl; lia).
      rewrite split_from_skip, Join_cons by apply split_from_not_nil.
      rewrite IH by (simpl in Hn; rewrite length_append in Hn; lia).
      unfold String.rev. rewrite rev_app_append. reflexivity.
    + rewrite IH by (simpl in Hn; lia). reflexivity.
Qed.

(** X1.  [strings.Split] loses nothing: for a non-empty separator the
    pieces joined by the separator give the string back, and there is
    always at least one piece. *)
Theorem Join_Split (s sep : string) :
  sep ≠ "" →
  Join (strings.Split s sep) sep = s ∧ strings.Split s sep ≠ [].
Proof.
  intros Hsep. split; [|apply split_from_not_nil].
  unfold strings.Split.
  rewrite (Join_split_from sep (String.length s) Hsep) by lia.
  reflexivity.
Qed.

Lemma Join_Split_witness :
  strings.Split "us-east-1, eu-west-1," "," = ["us-east-1"; " eu-west-1"; ""] ∧
  Join (strings.Split "us-east-1, eu-west-1," ",") ","
  = "us-east-1, eu-west-1,".
Proof.
  split; [reflexivity|].
  apply (Join_Split "us-east-1, eu-west-1," ","). discriminate.
Defined.

(** ** More on the normalisation of the base URL *)

Lemma append_assoc (s t u : string) : (s +:+ t) +:+ u = s +:+ (t +:+ u).
Proof.
  induction s as [|c s IH]; [reflexivity|].
  change (String c ((s +:+ t) +:+ u) = String c (s +:+ (t +:+ u))).
  now rewrite IH.
Qed.

Lemma HasPrefix_append_r (s t pre : string) :
  strings.HasPrefix s pre = true → strings.HasPrefix (s +:+ t) pre = true.
Proof.
  intros H. apply HasPrefix_inv in H as [rest ->].
  rewrite append_assoc. apply HasPrefix_append.
Qed.

Lemma Contains_of_HasPrefix (s sub : string) :
  strings.HasPrefix s sub = true → strings.Contains s sub = true.
Proof.
  intros H. destruct s as [|c s].
  - change (strings.HasPrefix "" sub || false = true). now rewrite H.
  - change (strings.HasPrefix (String c s) sub || strings.Contains s sub
            = true).
    now rewrite H.
Qed.

Lemma Contains_append (s t sub : string) :
  strings.Contains s sub = true → strings.Contains (s +:+ t) sub = true.
Proof.
  induction s as [|c s IH]; intros H.
  - apply Contains_of_HasPrefix.
    apply (HasPrefix_append_r "" t sub).
    change (strings.HasPrefix "" sub || false = true) in H.
    apply orb_true_iff in H as [H|H]; [exact H | discriminate].
  - change (strings.Contains (String c s) sub)
      with (strings.HasPrefix (String c s) sub || strings.Contains s sub) in H.
    change (strings.Contains (String c s +:+ t) sub)
      with (strings.HasPrefix (String c s +:+ t) sub
            || strings.Contains (s +:+ t) sub).
    apply orb_true_iff in H as [H|H]; apply orb_true_iff.
    + left. apply HasPrefix_append_r. exact H.
    + right. apply IH. exact H.
Qed.

Lemma with_scheme_Contains (s : string) :
  strings.Contains (with_scheme s) "://" = true.
Proof.
  unfold with_scheme. destruct (strings.Contains s "://") eqn:H; [exact H|].
  apply (Contains_append "https://" s "://"). reflexivity.
Qed.

Lemma with_slash_Contains (s : string) :
  strings.Contains s "://" = true →
  strings.Contains (with_slash s) "://" = true.
Proof.
  intros H. unfold with_slash. destruct (strings.HasSuffix s "/"); [exact H|].
  apply Contains_append. exact H.
Qed.

Lemma normalize_idempotent (s : string) :
  with_slash (with_scheme (with_slash (with_scheme s)))
  = with_slash (with_scheme s).
Proof.
  assert (Hc := with_slash_Contains _ (with_scheme_Contains s)).
  unfold with_scheme at 1. rewrite Hc.
  unfold with_slash at 1. rewrite with_slash_ends_in_slash. reflexivity.
Qed.

(** ** More on the stages *)

Section FurtherFacts.

Context `{E : GoEnv}.

(** Two options maps on which the stages compute the same give the same
    result and the same trace. *)
Lemma constructed_congr (storageDriver : StorageDriver)
    (opts1 opts2 : gmap string value) :
  baseurl_of (opts1 !! "baseurl") = baseurl_of (opts2 !! "baseurl") →
  required_string "privatekey" (opts1 !! "privatekey")
  = required_string "privatekey" (opts2 !! "privatekey") →
  required_string "keypairid" (opts1 !! "keypairid")
  = required_string "keypairid" (opts2 !! "keypairid") →
  duration_option "duration" (20 * Minute) (opts1 !! "duration")
  = duration_option "duration" (20 * Minute) (opts2 !! "duration") →
  opts1 !! "updatefrenquency" = opts2 !! "updatefrenquency" →
  opts1 !! "updatefrequency" = opts2 !! "updatefrequency" →
  host_of (opts1 !! "iprangesurl") = host_of (opts2 !! "iprangesurl") →
  (∀ host f, filter_of opts1 host f = filter_of opts2 host f) →
  (constructed storageDriver opts1).1 = (constructed storageDriver opts2).1 ∧
  trace (constructed storageDriver opts1).2
  = trace (constructed storageDriver opts2).2.
Proof.
  intros Hb Hp Hk Hd Hl Hc Hh Hf. unfold constructed.
  rewrite Hb, Hp, Hk, Hd. clear Hb Hp Hk Hd.
  destruct (baseurl_of _); [|split; reflexivity].
  destruct (required_string "privatekey" _); [|split; reflexivity].
  destruct (required_string "keypairid" _); [|split; reflexivity].
  destruct (signer_of _ _); [|split; reflexivity].
  destruct (duration_option "duration" _ _); [|split; reflexivity].
  unfold finish.
  set (st1 := {| options := opts1; trace := [] |}).
  set (st2 := {| options := opts2; trace := [] |}).
  assert (Ht : trace (after_legacy st1) = trace (after_legacy st2)).
  { unfold after_legacy. simpl. rewrite Hl.
    destruct (opts2 !! "updatefrenquency"); reflexivity. }
  assert (He : options (after_legacy st1) !! "updatefrequency"
               = options (after_legacy st2) !! "updatefrequency").
  { unfold after_legacy. simpl. rewrite Hl.
    destruct (opts2 !! "updatefrenquency"); simpl; [|exact Hc].
    rewrite !lookup_insert_eq. reflexivity. }
  rewrite He.
  destruct (duration_option "updatefrequency" _ _) as [freq|];
    [|split; [reflexivity | exact Ht]].
  rewrite !after_legacy_lookup by discriminate. simpl. rewrite Hh.
  clear Hh.
  destruct (host_of _) as [host|]; [|split; [reflexivity | exact Ht]].
  rewrite !filter_of_after_legacy. simpl. rewrite Hf.
  destruct (filter_of opts2 host freq) as [r evs]. simpl.
  rewrite Ht. split; reflexivity.
Qed.

(** The events of the filter stage: none, or the one call, whose outcome is
    the outcome of the stage. *)
Lemma filter_of_call_inv (opts : gmap string value) (host host' : string)
    (f f' : Z) (rg : list string) :
  CallNewAWSIPs host' f' rg ∈ (filter_of opts host f).2 →
  host' = host ∧ f' = f ∧
  filter_of opts host f = started host f rg ∧
  ∃ s, opts !! "ipfilteredby" = Some (VString s) ∧
       ((selector s = "aws" ∧ rg = []) ∨
        (selector s = "awsregion" ∧
         ∃ regions, opts !! "awsregion" = Some (VString regions) ∧
                    rg = map selector (strings.Split regions ","))).
Proof.
  unfold filter_of.
  destruct (opts !! "ipfilteredby") as [[| | |s|]|] eqn:Hi;
    try (intros H; inversion H; fail).
  destruct (String.eqb (selector s) "" || String.eqb (selector s) "none");
    [intros H; inversion H|].
  destruct (String.eqb_spec (selector s) "aws") as [Ha|_].
  - unfold started. simpl. intros H. apply list_elem_of_singleton in H.
    injection H as -> -> ->. repeat split. exists s. split; [reflexivity|].
    left. split; [exact Ha | reflexivity].
  - destruct (String.eqb_spec (selector s) "awsregion") as [Hr|_];
      [|intros H; inversion H].
    destruct (opts !! "awsregion") as [[| | |regions|]|];
      try (intros H; inversion H; fail).
    unfold started. simpl. intros H. apply list_elem_of_singleton in H.
    injection H as -> -> ->. repeat split. exists s. split; [reflexivity|].
    right. split; [exact Hr|]. exists regions. split; reflexivity.
Qed.

(** The filter stage logs nothing. *)
Lemma filter_of_no_warning (opts : gmap string value) (host : string)
    (f : Z) (msg : string) :
  Warn msg ∉ (filter_of opts host f).2.
Proof.
  unfold filter_of, started. intros H.
  repeat match type of H with
         | context [match ?x with _ => _ end] => destruct x
         end;
    simpl in H; try (inversion H; fail);
    apply list_elem_of_singleton in H; discriminate.
Qed.

(** The state the constructor ends in: the state it started in when one of
    the first five stages fails, else the state after the legacy key with
    the events of the filter stage, if it is reached. *)
Lemma constructed_state (storageDriver : StorageDriver)
    (opts : gmap string value) :
  let st0 := {| options := opts; trace := [] |} in
  (∃ err, constructed storageDriver opts = (Err err, st0)) ∨
  (∃ evs, (constructed storageDriver opts).2
          = {| options := options (after_legacy st0);
               trace := trace (after_legacy st0) ++ evs |} ∧
          (evs = [] ∨ ∃ host f, evs = (filter_of opts host f).2)).
Proof.
  intros st0. unfold constructed. fold st0.
  destruct (baseurl_of _); [|eauto].
  destruct (required_string "privatekey" _); [|eauto].
  destruct (required_string "keypairid" _); [|eauto].
  destruct (signer_of _ _); [|eauto].
  destruct (duration_option "duration" _ _); [|eauto].
  right. unfold finish.
  destruct (duration_option "updatefrequency" _ _) as [freq|].
  2:{ exists []. rewrite app_nil_r. split; [|auto].
      destruct (after_legacy st0); reflexivity. }
  destruct (host_of _) as [host|].
  2:{ exists []. rewrite app_nil_r. split; [|auto].
      destruct (after_legacy st0); reflexivity. }
  rewrite filter_of_after_legacy. change (options st0) with opts.
  destruct (filter_of opts host freq) as [r evs] eqn:Hf.
  exists evs. simpl. split; [reflexivity|].
  right. exists host, freq. rewrite Hf. reflexivity.
Qed.

(** What a call of [newAWSIPs] in the trace says about the run. *)
Lemma constructed_call_inv (storageDriver : StorageDriver)
    (opts : gmap string value) (host : string) (f : Z) (rg : list string) :
  CallNewAWSIPs host f rg ∈ trace (constructed storageDriver opts).2 →
  host_of (opts !! "iprangesurl") = Ok host ∧
  duration_option "updatefrequency" defaultUpdateFrequency
    (effective_frequency opts) = Ok f ∧
  filter_of opts host f = started host f rg ∧
  calls (trace (constructed storageDriver opts).2)
  = [CallNewAWSIPs host f rg] ∧
  match newAWSIPs host f rg with
  | Err err => (constructed storageDriver opts).1 = Err err
  | Ok ips => ∃ m, (constructed storageDriver opts).1 = Ok m ∧
                   lh_awsIPs m = Some ips
  end.
Proof.
  unfold constructed.
  set (st0 := {| options := opts; trace := [] |}).
  assert (Hw : ∀ ev, ev ∈ trace (after_legacy st0) → is_call ev = false).
  { unfold after_legacy. simpl. intros ev.
    destruct (opts !! "updatefrenquency"); simpl; intros H.
    - apply list_elem_of_singleton in H. subst ev. reflexivity.
    - inversion H. }
  assert (Hn : calls (trace (after_legacy st0)) = []).
  { rewrite after_legacy_calls. reflexivity. }
  destruct (baseurl_of _); [|intros H; inversion H].
  destruct (required_string "privatekey" _); [|intros H; inversion H].
  destruct (required_string "keypairid" _); [|intros H; inversion H].
  destruct (signer_of _ _); [|intros H; inversion H].
  destruct (duration_option "duration" _ _); [|intros H; inversion H].
  unfold finish. fold (effective_frequency opts).
  destruct (duration_option "updatefrequency" _ _) as [freq|] eqn:Hfreq.
  2:{ simpl. intros H. apply Hw in H. discriminate. }
  rewrite after_legacy_lookup by discriminate. simpl.
  destruct (host_of _) as [h|] eqn:Hhost.
  2:{ simpl. intros H. apply Hw in H. discriminate. }
  rewrite filter_of_after_legacy. change (options st0) with opts.
  destruct (filter_of opts h freq) as [r evs] eqn:Hf. simpl.
  rewrite elem_of_app. intros [H|H]; [apply Hw in H; discriminate|].
  assert (H' : CallNewAWSIPs host f rg ∈ (filter_of opts h freq).2)
    by (rewrite Hf; exact H).
  apply filter_of_call_inv in H' as (-> & -> & Hs & _).
  rewrite Hs in Hf. unfold started in Hf. injection Hf as <- <-.
  split; [reflexivity|]. split; [reflexivity|]. split; [exact Hs|].
  split.
  - unfold calls in *. rewrite List.filter_app, Hn. reflexivity.
  - destruct (newAWSIPs h freq rg) as [ips|e]; [|reflexivity].
    eexists. split; reflexivity.
Qed.

End FurtherFacts.

(** ** Further properties of the constructor *)

Ltac other_key :=
  first [ rewrite lookup_insert_ne by discriminate
        | rewrite lookup_delete_ne by discriminate ];
  reflexivity.

(** X2.  The base URL a constructed middleware stores holds [://], and is a
    fixed point of the normalisation: given back as [baseurl], it yields
    the same middleware and the same trace. *)
Theorem stored_baseurl_fixed_point `{E : GoEnv}
    (storageDriver : StorageDriver) (opts : gmap string value)
    (s : string) (m : cloudFrontStorageMiddleware) (st : cstate) :
  opts !! "baseurl" = Some (VString s) →
  construct storageDriver opts = (Ok m, st) →
  let opts' := <["baseurl" := VString (lh_baseURL m)]> opts in
  strings.Contains (lh_baseURL m) "://" = true ∧
  with_slash (with_scheme (lh_baseURL m)) = lh_baseURL m ∧
  (construct storageDriver opts').1 = Ok m ∧
  trace (construct storageDriver opts').2 = trace st.
Proof.
  intros Hs Hc opts'. subst opts'. rewrite construct_run in *.
  assert (Hinv := constructed_Ok_inv _ _ _ _ Hc).
  destruct Hinv as (_ & _ & _ & _ & Hb & _).
  assert (Hb0 := Hb). rewrite Hs in Hb. unfold baseurl_of in Hb.
  destruct (url_Parse _) eqn:Hu; [discriminate|].
  injection Hb as Hb.
  assert (Hfix : with_slash (with_scheme (lh_baseURL m)) = lh_baseURL m)
    by (rewrite <- Hb; apply normalize_idempotent).
  split; [rewrite <- Hb; apply with_slash_Contains, with_scheme_Contains|].
  split; [exact Hfix|].
  destruct (constructed_congr storageDriver
              (<["baseurl" := VString (lh_baseURL m)]> opts) opts)
    as [Hr Ht]; try other_key.
  - rewrite lookup_insert_eq, Hb0. unfold baseurl_of.
    rewrite Hfix, <- Hb, Hu. reflexivity.
  - intros host f. apply filter_of_ext; other_key.
  - rewrite Hr, Ht, Hc. split; reflexivity.
Qed.

Lemma stored_baseurl_fixed_point_witness :
  (construct Sample.s3
     (<["baseurl" := VString "https://d111111abcdef8.cloudfront.net/"]>
        Sample.required)).1
  = (construct Sample.s3 Sample.required).1.
Proof.
  destruct (construct Sample.s3 Sample.required) as [[m|e] st] eqn:Hc;
    [|vm_compute in Hc; discriminate].
  assert (Hm : lh_baseURL m = "https://d111111abcdef8.cloudfront.net/").
  { assert (H : (construct Sample.s3 Sample.required).1 = Ok m)
      by (rewrite Hc; reflexivity).
    vm_compute in H. injection H as <-. reflexivity. }
  destruct (stored_baseurl_fixed_point (E := Sample.env) Sample.s3
              Sample.required "d111111abcdef8.cloudfront.net" m st)
    as (_ & _ & Hr & _).
  - vm_compute. reflexivity.
  - exact Hc.
  - rewrite Hm in Hr. exact Hr.
Defined.

(** X3.  A [duration] that is neither a string nor a [time.Duration] is
    passed over without an error: the constructor returns and logs what it
    does without the option, and a middleware it returns has the default
    of 20 minutes. *)
Theorem other_typed_duration_ignored `{E : GoEnv}
    (storageDriver : StorageDriver) (opts : gmap string value) (v : value) :
  opts !! "duration" = Some v →
  is_other v = true →
  (construct storageDriver opts).1
  = (construct storageDriver (delete "duration" opts)).1 ∧
  trace (construct storageDriver opts).2
  = trace (construct storageDriver (delete "duration" opts)).2 ∧
  (∀ m, (construct storageDriver opts).1 = Ok m →
        lh_duration m = 20 * Minute).
Proof.
  intros Hv Ho. rewrite !construct_run.
  assert (Hd : duration_option "duration" (20 * Minute) (opts !! "duration")
               = Ok (20 * Minute)).
  { rewrite Hv. destruct v; try discriminate; reflexivity. }
  destruct (constructed_congr storageDriver opts (delete "duration" opts))
    as [Hr Ht]; try (symmetry; other_key).
  - rewrite Hd, lookup_delete_eq. reflexivity.
  - intros host f. apply filter_of_ext; symmetry; other_key.
  - split; [exact Hr|]. split; [exact Ht|].
    intros m Hm.
    destruct (constructed storageDriver opts) as [r st] eqn:Hc.
    simpl in Hm. subst r.
    apply constructed_Ok_inv in Hc as (_ & _ & _ & _ & _ & _ & _ & _ & H & _).
    rewrite Hd in H. congruence.
Qed.

Lemma other_typed_duration_ignored_witness :
  ∃ m, (construct Sample.s3 (<["duration" := VInt 30]> Sample.required)).1
       = Ok m ∧
       lh_duration m = 20 * Minute.
Proof.
  destruct (construct Sample.s3 (<["duration" := VInt 30]> Sample.required))
    as [[m|e] st] eqn:Hc; [|vm_compute in Hc; discriminate].
  exists m. split; [reflexivity|].
  destruct (other_typed_duration_ignored (E := Sample.env) Sample.s3
              (<["duration" := VInt 30]> Sample.required) (VInt 30))
    as (_ & _ & Hd).
  - vm_compute. reflexivity.
  - reflexivity.
  - apply Hd. rewrite Hc. reflexivity.
Defined.

(** X4.  The refresh interval and the address of the ranges are checked
    even when no filter uses them: a refresh interval given as a string
    that [time.ParseDuration] rejects, and an [iprangesurl] that is not a
    string, make the constructor return an error, whatever [ipfilteredby]
    is, and [newAWSIPs] is not called. *)
Theorem unused_options_validated `{E : GoEnv}
    (storageDriver : StorageDriver) (opts : gmap string value) :
  (∀ s e, effective_frequency opts = Some (VString s) →
          time_ParseDuration s = Err e →
          ((construct storageDriver opts).1
           = Err ("invalid updatefrequency: " +:+ e) ∨
           ∃ err, construct storageDriver opts
                  = (Err err, {| options := opts; trace := [] |})) ∧
          calls (trace (construct storageDriver opts).2) = []) ∧
  (∀ v, opts !! "iprangesurl" = Some v → is_string (Some v) = false →
        (∃ err, (construct storageDriver opts).1 = Err err) ∧
        calls (trace (construct storageDriver opts).2) = []).
Proof.
  rewrite construct_run. unfold constructed.
  set (st0 := {| options := opts; trace := [] |}).
  assert (Hn : calls (trace (after_legacy st0)) = [])
    by (rewrite after_legacy_calls; reflexivity).
  split.
  - intros s e Hs He.
    destruct (baseurl_of _); [|split; [eauto | reflexivity]].
    destruct (required_string "privatekey" _); [|split; [eauto | reflexivity]].
    destruct (required_string "keypairid" _); [|split; [eauto | reflexivity]].
    destruct (signer_of _ _); [|split; [eauto | reflexivity]].
    destruct (duration_option "duration" _ _);
      [|split; [eauto | reflexivity]].
    unfold finish.
    change (options (after_legacy st0) !! "updatefrequency")
      with (effective_frequency opts).
    rewrite Hs. simpl.
    rewrite He. simpl. split; [left; reflexivity | exact Hn].
  - intros v Hv Hn'.
    assert (Hh : ∃ err, host_of (opts !! "iprangesurl") = Err err).
    { rewrite Hv. destruct v; try discriminate; simpl; eauto. }
    destruct Hh as [err Hh].
    destruct (baseurl_of _); [|split; [simpl; eauto | reflexivity]].
    destruct (required_string "privatekey" _);
      [|split; [simpl; eauto | reflexivity]].
    destruct (required_string "keypairid" _);
      [|split; [simpl; eauto | reflexivity]].
    destruct (signer_of _ _); [|split; [simpl; eauto | reflexivity]].
    destruct (duration_option "duration" _ _);
      [|split; [simpl; eauto | reflexivity]].
    unfold finish.
    destruct (duration_option "updatefrequency" _ _);
      [|split; [simpl; eauto | exact Hn]].
    rewrite after_legacy_lookup by discriminate. simpl. rewrite Hh.
    split; [simpl; eauto | exact Hn].
Qed.

Lemma unused_options_validated_witness :
  (construct Sample.s3
     (<["updatefrequency" := VString "soon"]> Sample.required)).1
  = Err "invalid updatefrequency: time: invalid duration soon" ∧
  ∃ err, (construct Sample.s3
            (<["iprangesurl" := VInt 443]> Sample.required)).1 = Err err.
Proof.
  split.
  - destruct (proj1 (unused_options_validated (E := Sample.env) Sample.s3
                       (<["updatefrequency" := VString "soon"]>
                          Sample.required))
                "soon" "time: invalid duration soon") as [[H | [err H]] _].
    + vm_compute. reflexivity.
    + vm_compute. reflexivity.
    + exact H.
    + rewrite H. simpl. vm_compute in H. congruence.
  - apply (proj2 (unused_options_validated (E := Sample.env) Sample.s3
                    (<["iprangesurl" := VInt 443]> Sample.required))
             (VInt 443)).
    + vm_compute. reflexivity.
    + reflexivity.
Defined.

(** X5.  The option [awsregion] is read only when the filter option
    selects [awsregion]: otherwise any value put under it, of any type,
    changes neither the result nor the trace of the constructor. *)
Theorem awsregion_read_only_when_selected `{E : GoEnv}
    (storageDriver : StorageDriver) (opts : gmap string value) (v : value) :
  (∀ s, opts !! "ipfilteredby" = Some (VString s) →
        selector s ≠ "awsregion") →
  (construct storageDriver (<["awsregion" := v]> opts)).1
  = (construct storageDriver opts).1 ∧
  trace (construct storageDriver (<["awsregion" := v]> opts)).2
  = trace (construct storageDriver opts).2.
Proof.
  intros Hsel. rewrite !construct_run.
  apply constructed_congr; try other_key.
  intros host f. unfold filter_of.
  rewrite (lookup_insert_ne opts "awsregion" "ipfilteredby") by discriminate.
  destruct (opts !! "ipfilteredby") as [[| | |s|]|] eqn:Hi; try reflexivity.
  destruct (String.eqb (selector s) "" || String.eqb (selector s) "none");
    [reflexivity|].
  destruct (String.eqb (selector s) "aws"); [reflexivity|].
  destruct (String.eqb_spec (selector s) "awsregion") as [Hr|_];
    [|reflexivity].
  exfalso. exact (Hsel s eq_refl Hr).
Qed.

Lemma awsregion_read_only_when_selected_witness :
  (construct Sample.s3
     (<["awsregion" := VBool true]>
        (<["ipfilteredby" := VString "aws"]> Sample.required))).1
  = (construct Sample.s3
       (<["ipfilteredby" := VString "aws"]> Sample.required)).1.
Proof.
  apply (awsregion_read_only_when_selected (E := Sample.env) Sample.s3
           (<["ipfilteredby" := VString "aws"]> Sample.required)
           (VBool true)).
  intros s Hs. vm_compute in Hs. injection Hs as <-. vm_compute.
  discriminate.
Defined.

(** X6.  [newAWSIPs] is called last and at most once, and its outcome is
    the outcome of the constructor: when the call is in the trace it is the
    only call, an error of [newAWSIPs] is the error returned, and a range
    set it returns is the one the returned middleware holds. *)
Theorem range_set_never_dropped `{E : GoEnv}
    (storageDriver : StorageDriver) (opts : gmap string value)
    (host : string) (f : Z) (rg : list string) :
  CallNewAWSIPs host f rg ∈ trace (construct storageDriver opts).2 →
  calls (trace (construct storageDriver opts).2)
  = [CallNewAWSIPs host f rg] ∧
  (∀ err, newAWSIPs host f rg = Err err →
          (construct storageDriver opts).1 = Err err) ∧
  (∀ ips, newAWSIPs host f rg = Ok ips →
          ∃ m, (construct storageDriver opts).1 = Ok m ∧
               lh_awsIPs m = Some ips).
Proof.
  rewrite construct_run. intros H.
  apply constructed_call_inv in H as (_ & _ & _ & Hc & Hr).
  split; [exact Hc|].
  split; [intros err He | intros ips He]; rewrite He in Hr; exact Hr.
Qed.

Lemma range_set_never_dropped_witness :
  ∃ m, (construct Sample.s3
          (<["ipfilteredby" := VString "aws"]> Sample.required)).1 = Ok m ∧
       lh_awsIPs m = Some ["192.0.2.1"].
Proof.
  apply (range_set_never_dropped (E := Sample.env) Sample.s3
           (<["ipfilteredby" := VString "aws"]> Sample.required)
           "https://ip-ranges.amazonaws.com/ip-ranges.json"
           (720 * Minute) []).
  - vm_compute. apply list_elem_of_singleton. reflexivity.
  - reflexivity.
Defined.

(** X7.  The arguments of [newAWSIPs]: the address is the string under
    [iprangesurl], or the default when the option is absent; the refresh
    interval is the [time.Duration] or the parsed string of the refresh
    interval option, or the default when that option is absent or of
    another type; the regions are none for [aws], and for [awsregion] the
    comma-separated pieces of the option [awsregion], each trimmed and in
    lower case, of which there is at least one. *)
Theorem range_set_arguments `{E : GoEnv}
    (storageDriver : StorageDriver) (opts : gmap string value)
    (host : string) (f : Z) (rg : list string) :
  CallNewAWSIPs host f rg ∈ trace (construct storageDriver opts).2 →
  (opts !! "iprangesurl" = None ∧ host = defaultIPRangesURL ∨
   opts !! "iprangesurl" = Some (VString host)) ∧
  (effective_frequency opts = Some (VDuration f) ∨
   (∃ s, effective_frequency opts = Some (VString s) ∧
         time_ParseDuration s = Ok f) ∨
   (f = defaultUpdateFrequency ∧
    (effective_frequency opts = None ∨
     ∃ v, effective_frequency opts = Some v ∧ is_other v = true))) ∧
  ∃ s, opts !! "ipfilteredby" = Some (VString s) ∧
       ((selector s = "aws" ∧ rg = []) ∨
        (selector s = "awsregion" ∧
         ∃ regions, opts !! "awsregion" = Some (VString regions) ∧
                    rg = map selector (strings.Split regions ",") ∧
                    rg ≠ [])).
Proof.
  rewrite construct_run. intros H.
  apply constructed_call_inv in H as (Hh & Hf & Hs & _ & _).
  split; [|split].
  - unfold host_of in Hh.
    destruct (opts !! "iprangesurl") as [[]|]; try discriminate;
      injection Hh as <-; auto.
  - unfold duration_option in Hf.
    destruct (effective_frequency opts) as [[| | |s|d]|];
      try (injection Hf as <-; right; right; split; eauto; fail).
    + destruct (time_ParseDuration s) eqn:Hp; [|discriminate].
      injection Hf as <-. right. left. eauto.
    + injection Hf as <-. left. reflexivity.
  - assert (Hin : CallNewAWSIPs host f rg ∈ (filter_of opts host f).2).
    { rewrite Hs. unfold started. simpl. apply list_elem_of_singleton.
      reflexivity. }
    apply filter_of_call_inv in Hin as (_ & _ & _ & s & Hi & Hsel).
    exists s. split; [exact Hi|].
    destruct Hsel as [Ha | (Hr & regions & Hreg & ->)]; [left; exact Ha|].
    right. split; [exact Hr|]. exists regions.
    split; [exact Hreg|]. split; [reflexivity|].
    unfold strings.Split. intros Hnil. apply map_eq_nil in Hnil.
    exact (split_from_not_nil _ _ _ _ Hnil).
Qed.

Lemma range_set_arguments_witness :
  let opts := <["ipfilteredby" := VString "awsregion"]>
                (<["awsregion" := VString "us-east-1, EU-West-1"]>
                   (<["updatefrequency" := VString "1h"]>
                      (<["iprangesurl" := VString "https://mirror/ranges"]>
                         Sample.required))) in
  opts !! "iprangesurl" = Some (VString "https://mirror/ranges") ∧
  CallNewAWSIPs "https://mirror/ranges" (60 * Minute)
    ["us-east-1"; "eu-west-1"] ∈ trace (construct Sample.s3 opts).2.
Proof.
  intros opts.
  assert (Hin : CallNewAWSIPs "https://mirror/ranges" (60 * Minute)
                  ["us-east-1"; "eu-west-1"]
                ∈ trace (construct Sample.s3 opts).2).
  { vm_compute. apply list_elem_of_singleton. reflexivity. }
  split; [|exact Hin].
  destruct (range_set_arguments (E := Sample.env) Sample.s3 opts _ _ _ Hin)
    as ([[Hn _] | Hh] & _); [vm_compute in Hn; discriminate | exact Hh].
Defined.

(** X8.  The constructor writes to the options map it is given only under
    [updatefrequency], and only when the legacy key is there: without the
    legacy key the map is left as it was and no warning is logged; with it
    the map is left as it was or holds the legacy value under
    [updatefrequency], the legacy key staying in place. *)
Theorem options_written_only_for_legacy `{E : GoEnv}
    (storageDriver : StorageDriver) (opts : gmap string value) :
  (∀ k, k ≠ "updatefrequency" →
        options (construct storageDriver opts).2 !! k = opts !! k) ∧
  (opts !! "updatefrenquency" = None →
   options (construct storageDriver opts).2 = opts ∧
   ∀ msg, Warn msg ∉ trace (construct storageDriver opts).2) ∧
  (∀ v, opts !! "updatefrenquency" = Some v →
        options (construct storageDriver opts).2 = opts ∨
        options (construct storageDriver opts).2
        = <["updatefrequency" := v]> opts).
Proof.
  rewrite construct_run.
  destruct (constructed_state storageDriver opts)
    as [[err Herr] | (evs & Hst & Hevs)].
  - rewrite Herr. simpl. split; [reflexivity|].
    split; [|auto]. intros _. split; [reflexivity|].
    intros msg H. inversion H.
  - rewrite Hst. simpl. split; [|split].
    + intros k Hk.
      exact (after_legacy_lookup {| options := opts; trace := [] |} k Hk).
    + intros Hn. unfold after_legacy. simpl. rewrite Hn. simpl.
      split; [reflexivity|]. intros msg H.
      destruct Hevs as [-> | (host & f & ->)]; [inversion H|].
      exact (filter_of_no_warning _ _ _ _ H).
    + intros v Hv. right. unfold after_legacy. simpl. rewrite Hv.
      reflexivity.
Qed.

Lemma options_written_only_for_legacy_witness :
  options (construct Sample.s3
             (<["updatefrenquency" := VString "1h"]> Sample.required)).2
    !! "updatefrenquency" = Some (VString "1h") ∧
  options (construct Sample.s3 Sample.required).2 = Sample.required.
Proof.
  split.
  - rewrite (proj1 (options_written_only_for_legacy (E := Sample.env)
                      Sample.s3
                      (<["updatefrenquency" := VString "1h"]>
                         Sample.required))) by discriminate.
    vm_compute. reflexivity.
  - apply (proj1 (proj2 (options_written_only_for_legacy (E := Sample.env)
                           Sample.s3 Sample.required))).
    vm_compute. reflexivity.
Defined.

(** X9.  The three required options are checked in the order [baseurl],
    [privatekey], [keypairid], and the first one that is wrong names the
    error: absent, not a string, or for [baseurl] rejected by [url.Parse]
    once normalised.  Nothing has been written or logged by then. *)
Theorem required_option_errors `{E : GoEnv}
    (storageDriver : StorageDriver) (opts : gmap string value) :
  let failed (err : error) :=
    construct storageDriver opts
    = (Err err, {| options := opts; trace := [] |}) in
  (opts !! "baseurl" = None → failed "no baseurl provided") ∧
  (∀ v, opts !! "baseurl" = Some v → is_string (Some v) = false →
        failed "baseurl must be a string") ∧
  (∀ s e, opts !! "baseurl" = Some (VString s) →
          url_Parse (with_slash (with_scheme s)) = Some e →
          failed ("invalid baseurl: " +:+ e)) ∧
  (∀ s, opts !! "baseurl" = Some (VString s) →
        url_Parse (with_slash (with_scheme s)) = None →
        (opts !! "privatekey" = None → failed "no privatekey provided") ∧
        (∀ v, opts !! "privatekey" = Some v → is_string (Some v) = false →
              failed "privatekey must be a string") ∧
        (is_string (opts !! "privatekey") = true →
         (opts !! "keypairid" = None → failed "no keypairid provided") ∧
         (∀ v, opts !! "keypairid" = Some v → is_string (Some v) = false →
               failed "keypairid must be a string"))).
Proof.
  intros failed. unfold failed. rewrite construct_run. unfold constructed.
  split; [|split; [|split; [|]]].
  - intros ->. reflexivity.
  - intros v -> Hv. destruct v; try discriminate; reflexivity.
  - intros s e -> He. simpl. rewrite He. reflexivity.
  - intros s -> Hu. simpl. rewrite Hu.
    split; [|split].
    + intros ->. reflexivity.
    + intros v -> Hv. destruct v; try discriminate; reflexivity.
    + intros Hp.
      destruct (opts !! "privatekey") as [[| | |pk|]|]; try discriminate.
      simpl. split.
      * intros ->. reflexivity.
      * intros v -> Hv. destruct v; try discriminate; reflexivity.
Qed.

Lemma required_option_errors_witness :
  construct Sample.s3 (<["baseurl" := VString "://cdn"]> Sample.required)
  = (Err "invalid baseurl: missing protocol scheme",
     {| options := <["baseurl" := VString "://cdn"]> Sample.required;
        trace := [] |}) ∧
  construct Sample.s3 (<["keypairid" := VInt 7]> Sample.required)
  = (Err "keypairid must be a string",
     {| options := <["keypairid" := VInt 7]> Sample.required;
        trace := [] |}).
Proof.
  split.
  - apply (proj1 (proj2 (proj2 (required_option_errors (E := Sample.env)
              Sample.s3 (<["baseurl" := VString "://cdn"]> Sample.required))))
             "://cdn" "missing protocol scheme");
      vm_compute; reflexivity.
  - destruct (proj2 (proj2 (proj2 (required_option_errors (E := Sample.env)
                Sample.s3 (<["keypairid" := VInt 7]> Sample.required))))
                "d111111abcdef8.cloudfront.net") as (_ & _ & Hk);
      [vm_compute; reflexivity | vm_compute; reflexivity |].
    apply (proj2 (Hk ltac:(vm_compute; reflexivity)) (VInt 7));
      [vm_compute; reflexivity | reflexivity].
Defined.

(** X10.  With the three required options in order, the key file is the
    next thing that can fail, whatever the other options are: an error of
    [os.ReadFile] is reported with its message, data that is not PEM with a
    message of its own, and an error of [x509.ParsePKCS1PrivateKey] as it
    is. *)
Theorem key_file_errors `{E : GoEnv}
    (storageDriver : StorageDriver) (opts : gmap string value)
    (s pkPath keypairID : string) :
  opts !! "baseurl" = Some (VString s) →
  url_Parse (with_slash (with_scheme s)) = None →
  opts !! "privatekey" = Some (VString pkPath) →
  opts !! "keypairid" = Some (VString keypairID) →
  let failed (err : error) :=
    construct storageDriver opts
    = (Err err, {| options := opts; trace := [] |}) in
  (∀ e, os_ReadFile pkPath = Err e →
        failed ("failed to read privatekey file: " +:+ e)) ∧
  (∀ pkBytes, os_ReadFile pkPath = Ok pkBytes →
              pem_Decode pkBytes = None →
              failed "failed to decode private key as an rsa private key") ∧
  (∀ pkBytes block e, os_ReadFile pkPath = Ok pkBytes →
                      pem_Decode pkBytes = Some block →
                      x509_ParsePKCS1PrivateKey block = Err e →
                      failed e).
Proof.
  intros Hb Hu Hp Hk failed. unfold failed. rewrite construct_run.
  unfold constructed. rewrite Hb, Hp, Hk. simpl. rewrite Hu.
  unfold signer_of. split; [|split].
  - intros e ->. reflexivity.
  - intros b -> ->. reflexivity.
  - intros b k e -> -> ->. reflexivity.
Qed.

Lemma key_file_errors_witness :
  construct Sample.s3 (<["privatekey" := VString "/missing.pem"]>
                         (<["duration" := VString "never"]> Sample.required))
  = (Err "failed to read privatekey file: open /missing.pem: no such file or directory",
     {| options := <["privatekey" := VString "/missing.pem"]>
                     (<["duration" := VString "never"]> Sample.required);
        trace := [] |}).
Proof.
  destruct (key_file_errors (E := Sample.env) Sample.s3
              (<["privatekey" := VString "/missing.pem"]>
                 (<["duration" := VString "never"]> Sample.required))
              "d111111abcdef8.cloudfront.net" "/missing.pem" "APKAEXAMPLE")
    as [Hread _]; [vm_compute; reflexivity ..|].
  apply Hread. vm_compute. reflexivity.
Defined.

(** X11.  The signer of a constructed middleware is made of the options:
    its key pair id is the string under [keypairid], and its private key is
    the one parsed from the PEM block of the file named under
    [privatekey]. *)
Theorem signer_from_options `{E : GoEnv}
    (storageDriver : StorageDriver) (opts : gmap string value)
    (m : cloudFrontStorageMiddleware) (st : cstate) :
  construct storageDriver opts = (Ok m, st) →
  opts !! "keypairid" = Some (VString (keyID (lh_urlSigner m))) ∧
  ∃ pkPath pkBytes block,
    opts !! "privatekey" = Some (VString pkPath) ∧
    os_ReadFile pkPath = Ok pkBytes ∧
    pem_Decode pkBytes = Some block ∧
    x509_ParsePKCS1PrivateKey block = Ok (privKey (lh_urlSigner m)).
Proof.
  rewrite construct_run. intros Hc.
  apply constructed_Ok_inv in Hc
    as (pkPath & keypairID & _ & _ & _ & Hp & Hk & Hs & _).
  unfold required_string in Hp, Hk.
  destruct (opts !! "privatekey") as [[| | |pk|]|]; try discriminate.
  destruct (opts !! "keypairid") as [[| | |kp|]|]; try discriminate.
  injection Hp as ->. injection Hk as ->.
  unfold signer_of in Hs.
  destruct (os_ReadFile pkPath) as [b|] eqn:Hr; [|discriminate].
  destruct (pem_Decode b) as [k|] eqn:Hd; [|discriminate].
  destruct (x509_ParsePKCS1PrivateKey k) as [key|] eqn:Hx; [|discriminate].
  injection Hs as <-. simpl. split; [reflexivity|].
  exists pkPath, b, k. auto.
Qed.

Lemma signer_from_options_witness :
  ∃ m st, construct Sample.s3 Sample.required = (Ok m, st) ∧
          Sample.required !! "keypairid"
          = Some (VString (keyID (lh_urlSigner m))).
Proof.
  destruct (construct Sample.s3 Sample.required) as [[m|e] st] eqn:Hc;
    [|vm_compute in Hc; discriminate].
  exists m, st. split; [reflexivity|].
  exact (proj1 (signer_from_options (E := Sample.env) Sample.s3
                  Sample.required m st Hc)).
Defined.

(** X12.  From the options to the signature: for a middleware constructed
    over a driver with the bucket-key capability and a request that is not
    eligible, the signer is called with the key pair id of the options, on
    the normalised [baseurl] followed by the driver's key for the path, with
    the expiry at the duration of the middleware after the call. *)
Theorem constructed_redirect_signs `{E : GoEnv}
    (storageDriver : StorageDriver) (opts : gmap string value)
    (m : cloudFrontStorageMiddleware) (st : cstate)
    (s keypairID : string) (S3BucketKey : string → string)
    (now : Z) (r : Request) (path : string) :
  construct storageDriver opts = (Ok m, st) →
  opts !! "baseurl" = Some (VString s) →
  opts !! "keypairid" = Some (VString keypairID) →
  sd_S3BucketKey storageDriver = Some S3BucketKey →
  eligibleForS3 r (lh_awsIPs m) = false →
  let target := with_slash (with_scheme s) +:+ S3BucketKey path in
  let expiry := now + lh_duration m in
  let signed :=
    URLSigner_Sign keypairID (privKey (lh_urlSigner m)) target expiry in
  (RedirectURL m now r path).2 = [CallSign target expiry] ∧
  (RedirectURL m now r path).1
  = match signed.2 with
    | Some err => ("", Some err)
    | None => (signed.1, None)
    end.
Proof.
  intros Hc Hs Hk Hkey He. rewrite construct_run in Hc.
  apply constructed_Ok_inv in Hc
    as (pk & kp & _ & _ & Hb & _ & Hkp & Hsig & _ & _ & _ & _ & Hd & _).
  rewrite Hs in Hb. unfold baseurl_of in Hb.
  destruct (url_Parse _); [discriminate|]. injection Hb as Hb.
  rewrite Hk in Hkp. injection Hkp as <-.
  assert (Hid : keyID (lh_urlSigner m) = keypairID).
  { unfold signer_of in Hsig.
    destruct (os_ReadFile pk) as [b|]; [|discriminate].
    destruct (pem_Decode b) as [k|]; [|discriminate].
    destruct (x509_ParsePKCS1PrivateKey k); [|discriminate].
    injection Hsig as <-. reflexivity. }
  unfold RedirectURL, Sign. rewrite Hd, Hkey, He, Hid, <- Hb.
  destruct (URLSigner_Sign _ _ _ _) as [u [e|]]; split; reflexivity.
Qed.

Lemma constructed_redirect_signs_witness :
  ∃ m st,
    construct Sample.s3 Sample.required = (Ok m, st) ∧
    RedirectURL m 1000 "203.0.113.7" "/docker/blob"
    = (("https://d111111abcdef8.cloudfront.net/registry/docker/blob?Key-Pair-Id=APKAEXAMPLE",
        None),
       [CallSign "https://d111111abcdef8.cloudfront.net/registry/docker/blob"
          (1000 + 20 * Minute)]).
Proof.
  destruct (construct Sample.s3 Sample.required) as [[m|e] st] eqn:Hc;
    [|vm_compute in Hc; discriminate].
  exists m, st. split; [reflexivity|].
  assert (Hm : (construct Sample.s3 Sample.required).1 = Ok m)
    by (rewrite Hc; reflexivity).
  vm_compute in Hm. injection Hm as Hm.
  destruct (constructed_redirect_signs (E := Sample.env) Sample.s3
              Sample.required m st "d111111abcdef8.cloudfront.net"
              "APKAEXAMPLE" (λ path, "registry" +:+ path)
              1000 "203.0.113.7" "/docker/blob") as [Ht Hr].
  - exact Hc.
  - vm_compute. reflexivity.
  - vm_compute. reflexivity.
  - reflexivity.
  - rewrite <- Hm. reflexivity.
  - rewrite (surjective_pairing (RedirectURL m 1000 "203.0.113.7"
                                   "/docker/blob")).
    rewrite Ht, Hr, <- Hm. vm_compute. reflexivity.
Defined.

(** X13.  With the filter absent, empty or [none], the middleware holds no
    range set, and each request is decided by what [eligibleForS3] answers
    for the request and a nil range set: the wrapped driver's [RedirectURL]
    when it is true, a signature when it is false. *)
Theorem disabled_filter_decision `{E : GoEnv}
    (storageDriver : StorageDriver) (opts : gmap string value)
    (m : cloudFrontStorageMiddleware) (st : cstate)
    (S3BucketKey : string → string) (now : Z) (r : Request) (path : string) :
  construct storageDriver opts = (Ok m, st) →
  opts !! "ipfilteredby" = None ∨
  (∃ s, opts !! "ipfilteredby" = Some (VString s) ∧
        (selector s = "" ∨ selector s = "none")) →
  sd_S3BucketKey storageDriver = Some S3BucketKey →
  (eligibleForS3 r None = true →
   RedirectURL m now r path
   = (sd_RedirectURL storageDriver r path, [CallDriverRedirectURL path])) ∧
  (eligibleForS3 r None = false →
   (RedirectURL m now r path).2
   = [CallSign (lh_baseURL m +:+ S3BucketKey path) (now + lh_duration m)]).
Proof.
  intros Hc Hoff Hkey. rewrite construct_run in Hc.
  apply constructed_Ok_inv in Hc
    as (_ & _ & f & host & _ & _ & _ & _ & _ & _ & _ & Hf & Hd & _).
  rewrite (filter_of_disabled opts host f Hoff) in Hf. simpl in Hf.
  injection Hf as Hips.
  unfold RedirectURL. rewrite Hd, Hkey, <- Hips.
  split; intros ->; [reflexivity|].
  destruct (Sign _ _ _) as [u [e|]]; reflexivity.
Qed.

Lemma disabled_filter_decision_witness :
  ∃ m st,
    construct Sample.s3 Sample.required = (Ok m, st) ∧
    (RedirectURL m 1000 "10.0.0.1" "/docker/blob").2
    = [CallSign (lh_baseURL m +:+ "registry/docker/blob")
         (1000 + lh_duration m)].
Proof.
  destruct (construct Sample.s3 Sample.required) as [[m|e] st] eqn:Hc;
    [|vm_compute in Hc; discriminate].
  exists m, st. split; [reflexivity|].
  apply (disabled_filter_decision (E := Sample.env) Sample.s3
           Sample.required m st (λ path, "registry" +:+ path)
           1000 "10.0.0.1" "/docker/blob" Hc).
  - left. vm_compute. reflexivity.
  - reflexivity.
  - reflexivity.
Defined.

(** ** Further properties of [RedirectURL] *)

(** X14.  Every call of [RedirectURL] makes exactly one call out: the
    signer when the driver has the bucket-key capability and the request is
    not eligible, the wrapped driver's [RedirectURL] otherwise, never both;
    and it logs the warning about the driver exactly when the driver lacks
    the capability. *)
Theorem redirect_one_call `{E : GoEnv} (lh : cloudFrontStorageMiddleware)
    (now : Z) (r : Request) (path : string) :
  ((∃ S3BucketKey,
      sd_S3BucketKey (lh_StorageDriver lh) = Some S3BucketKey ∧
      eligibleForS3 r (lh_awsIPs lh) = false ∧
      calls (RedirectURL lh now r path).2
      = [CallSign (lh_baseURL lh +:+ S3BucketKey path)
                  (now + lh_duration lh)]) ∨
   ((sd_S3BucketKey (lh_StorageDriver lh) = None ∨
     eligibleForS3 r (lh_awsIPs lh) = true) ∧
    calls (RedirectURL lh now r path).2 = [CallDriverRedirectURL path])) ∧
  (Warn unsupported_warning ∈ (RedirectURL lh now r path).2 ↔
   sd_S3BucketKey (lh_StorageDriver lh) = None).
Proof.
  unfold RedirectURL.
  destruct (sd_S3BucketKey (lh_StorageDriver lh)) as [key|] eqn:Hk.
  - destruct (eligibleForS3 r (lh_awsIPs lh)) eqn:He.
    + split; [right; split; [right|]; reflexivity|].
      simpl. split; [|discriminate].
      intros H. apply list_elem_of_singleton in H. discriminate.
    + destruct (Sign _ _ _) as [u [e|]]; simpl;
        (split; [left; exists key; repeat split; reflexivity|]);
        (split; [|discriminate]);
        intros H; apply list_elem_of_singleton in H; discriminate.
  - split; [right; split; [left|]; reflexivity|].
    simpl. split; [reflexivity|]. intros _. apply elem_of_cons. left.
    reflexivity.
Qed.

(** ** Options the constructor does not know *)

(** The keys the constructor looks up. *)
Lemma known_key_cases (k : string) :
  k ∉ ["baseurl"; "privatekey"; "keypairid"; "duration"; "updatefrequency";
       "updatefrenquency"; "iprangesurl"; "ipfilteredby"; "awsregion"] →
  k ≠ "baseurl" ∧ k ≠ "privatekey" ∧ k ≠ "keypairid" ∧ k ≠ "duration" ∧
  k ≠ "updatefrequency" ∧ k ≠ "updatefrenquency" ∧ k ≠ "iprangesurl" ∧
  k ≠ "ipfilteredby" ∧ k ≠ "awsregion".
Proof.
  intros Hk. repeat split; intros ->; apply Hk;
    repeat (apply elem_of_cons; first [left; reflexivity | right]).
Qed.

(** X15.  An option under any other key than the nine the constructor looks
    up is ignored, whatever its value: it changes neither the result nor the
    trace. *)
Theorem unknown_options_ignored `{E : GoEnv}
    (storageDriver : StorageDriver) (opts : gmap string value)
    (k : string) (v : value) :
  k ∉ ["baseurl"; "privatekey"; "keypairid"; "duration"; "updatefrequency";
       "updatefrenquency"; "iprangesurl"; "ipfilteredby"; "awsregion"] →
  (construct storageDriver (<[k := v]> opts)).1
  = (construct storageDriver opts).1 ∧
  trace (construct storageDriver (<[k := v]> opts)).2
  = trace (construct storageDriver opts).2.
Proof.
  intros Hk. apply known_key_cases in Hk
    as (H1 & H2 & H3 & H4 & H5 & H6 & H7 & H8 & H9).
  rewrite !construct_run.
  apply constructed_congr;
    try (rewrite lookup_insert_ne by congruence; reflexivity).
  intros host f. apply filter_of_ext;
    rewrite lookup_insert_ne by congruence; reflexivity.
Qed.

Lemma unknown_options_ignored_witness :
  (construct Sample.s3 (<["ipfilterdby" := VString "aws"]> Sample.required)).1
  = (construct Sample.s3 Sample.required).1.
Proof.
  apply (unknown_options_ignored (E := Sample.env) Sample.s3 Sample.required
           "ipfilterdby" (VString "aws")).
  intros H.
  repeat (apply elem_of_cons in H as [H|H]; [discriminate|]).
  inversion H.
Defined.

(** ** The duration and the spelling of the filter *)

(** X16.  The duration of a constructed middleware is the [time.Duration]
    given under [duration], or what [time.ParseDuration] makes of the
    string given there; a string it rejects makes the constructor fail
    before anything is written, logged or started. *)
Theorem configured_duration `{E : GoEnv}
    (storageDriver : StorageDriver) (opts : gmap string value) :
  (∀ m st, construct storageDriver opts = (Ok m, st) →
     (∀ d, opts !! "duration" = Some (VDuration d) → lh_duration m = d) ∧
     (∀ s, opts !! "duration" = Some (VString s) →
           time_ParseDuration s = Ok (lh_duration m))) ∧
  (∀ s e, opts !! "duration" = Some (VString s) →
          time_ParseDuration s = Err e →
          ∃ err, construct storageDriver opts
                 = (Err err, {| options := opts; trace := [] |})).
Proof.
  rewrite construct_run. split.
  - intros m st Hc.
    apply constructed_Ok_inv in Hc as (_ & _ & _ & _ & _ & _ & _ & _ & H & _).
    split.
    + intros d Hd. rewrite Hd in H. simpl in H. congruence.
    + intros s Hs. rewrite Hs in H. simpl in H.
      destruct (time_ParseDuration s); [congruence | discriminate].
  - intros s e Hs He. unfold constructed.
    destruct (baseurl_of _); [|eauto].
    destruct (required_string "privatekey" _); [|eauto].
    destruct (required_string "keypairid" _); [|eauto].
    destruct (signer_of _ _); [|eauto].
    rewrite Hs. simpl. rewrite He. eauto.
Qed.

Lemma configured_duration_witness :
  (∀ m st, construct Sample.s3 (<["duration" := VString "1h"]> Sample.required)
           = (Ok m, st) →
           Sample.duration_literal "1h" = Ok (lh_duration m)) ∧
  ∃ err, construct Sample.s3 (<["duration" := VString "1 hour"]>
                                Sample.required)
         = (Err err,
            {| options := <["duration" := VString "1 hour"]> Sample.required;
               trace := [] |}).
Proof.
  split.
  - intros m st Hc.
    apply (proj2 (proj1 (configured_duration (E := Sample.env) Sample.s3
                           (<["duration" := VString "1h"]> Sample.required))
                    m st Hc) "1h").
    vm_compute. reflexivity.
  - apply (proj2 (configured_duration (E := Sample.env) Sample.s3
                    (<["duration" := VString "1 hour"]> Sample.required))
             "1 hour" "time: invalid duration 1 hour").
    + vm_compute. reflexivity.
    + vm_compute. reflexivity.
Defined.

(** X17.  Of the string under [ipfilteredby] only the trimmed, lower-case
    form counts: two strings with the same form give the same result and
    the same trace. *)
Theorem ipfilteredby_spelling `{E : GoEnv}
    (storageDriver : StorageDriver) (opts : gmap string value)
    (s1 s2 : string) :
  selector s1 = selector s2 →
  (construct storageDriver (<["ipfilteredby" := VString s1]> opts)).1
  = (construct storageDriver (<["ipfilteredby" := VString s2]> opts)).1 ∧
  trace (construct storageDriver (<["ipfilteredby" := VString s1]> opts)).2
  = trace (construct storageDriver (<["ipfilteredby" := VString s2]> opts)).2.
Proof.
  intros Hsel. rewrite !construct_run.
  apply constructed_congr;
    try (rewrite !lookup_insert_ne by discriminate; reflexivity).
  intros host f. unfold filter_of.
  rewrite !lookup_insert_eq, !lookup_insert_ne by discriminate.
  rewrite Hsel. reflexivity.
Qed.

Lemma ipfilteredby_spelling_witness :
  (construct Sample.s3 (<["ipfilteredby" := VString " AWS "]>
                          Sample.required)).1
  = (construct Sample.s3 (<["ipfilteredby" := VString "aws"]>
                            Sample.required)).1.
Proof.
  apply (ipfilteredby_spelling (E := Sample.env) Sample.s3 Sample.required
           " AWS " "aws").
  vm_compute. reflexivity.
Defined.

(** ** The stored base URL and absolute URLs *)




Example IsAbs_examples :
  IsAbs "https://cdn.example.com/" = true ∧
  IsAbs "s3+v4.x-1://bucket" = true ∧
  IsAbs "/path?next=http://x/" = false ∧
  IsAbs "cdn.example.com/" = false ∧
  IsAbs "1http://x" = false ∧
  IsAbs "://x" = false ∧
  IsAbs "" = false.
Proof. repeat split; reflexivity. Qed.






